(** * A shallow embedding of the http2 connection engine

    The development follows the three Go sources of the repository:

    - [conn.go]: the [Conn] type, [NewConn], [HandleSettings], [ReadLoop],
      [WriteLoop], [WindowUpdate] and [Close];
    - [stream.go]: the request/response adapter, [SendRequest] and
      [RecvResponse];
    - the package constants ([DefaultSettings], [NilSettings]).

    Go's fixed-width integers are integers in [Z] with the wrap-around
    written out.  Go maps are reference values: a settings table lives in
    a store and a [Conn] or a [Stream] holds a reference to it, so that two
    holders of one reference see each other's writes.  A channel is the
    sequence of frames sent on it together with its closed flag. *)

From Stdlib Require Import ZArith Lia.
From Stdlib.Strings Require Byte.
From stdpp Require Import gmap strings list.

Local Open Scope Z_scope.

(** ** Fixed-width integers *)

Module Int32.

Definition modulus : Z := 2 ^ 32.
Definition min_signed : Z := - 2 ^ 31.
Definition max_signed : Z := 2 ^ 31 - 1.

(** Conversion to [int32]: the value modulo 2^32, read as two's complement. *)
Definition to_int32 (z : Z) : Z := (z + 2 ^ 31) mod modulus - 2 ^ 31.

(** Conversion to [uint32]. *)
Definition to_uint32 (z : Z) : Z := z mod modulus.

Definition add (a b : Z) : Z := to_int32 (a + b).
Definition sub (a b : Z) : Z := to_int32 (a - b).

Definition is_int32 (z : Z) : Prop := min_signed <= z <= max_signed.

End Int32.

(** ** Constants and enumerations of the frame package

    The sub-package [frame] is imported by [conn.go] and [stream.go]; what
    the three sources use of it is collected here. *)

(** Modelled from the spec: the frame kinds of the codec, "a polymorphic
    value over variants {Headers, Data, Settings, WindowUpdate, GoAway,
    RstStream, ...}"; the declaration of the frame-type constants is in the
    frame package. *)
Inductive FrameType : Set :=
  | DataFrameType
  | HeadersFrameType
  | RstStreamFrameType
  | SettingsFrameType
  | GoAwayFrameType
  | WindowUpdateFrameType
  | OtherFrameType (code : Z).

Global Instance FrameType_eq_dec : EqDecision FrameType.
Proof. solve_decision. Defined.

(** Modelled from the spec: the parameter identifiers of a settings table,
    "maximum concurrent streams, initial window size, header-table size";
    the declaration of [SettingsID] is in the frame package. *)
Inductive SettingsID : Set :=
  | SETTINGS_HEADER_TABLE_SIZE
  | SETTINGS_MAX_CONCURRENT_STREAMS
  | SETTINGS_INITIAL_WINDOW_SIZE.

Global Instance SettingsID_eq_dec : EqDecision SettingsID.
Proof. solve_decision. Defined.

Definition SettingsID_to_nat (k : SettingsID) : nat :=
  match k with
  | SETTINGS_HEADER_TABLE_SIZE => 0
  | SETTINGS_MAX_CONCURRENT_STREAMS => 1
  | SETTINGS_INITIAL_WINDOW_SIZE => 2
  end%nat.

Definition SettingsID_of_nat (n : nat) : SettingsID :=
  match n with
  | O => SETTINGS_HEADER_TABLE_SIZE
  | S O => SETTINGS_MAX_CONCURRENT_STREAMS
  | _ => SETTINGS_INITIAL_WINDOW_SIZE
  end.

Global Instance SettingsID_countable : Countable SettingsID.
Proof.
  refine (inj_countable' SettingsID_to_nat SettingsID_of_nat _).
  intros k. destruct k; reflexivity.
Defined.

(** Modelled from the spec: the flag bits of the wire contract ("flag bit
    meanings for end-of-stream and end-of-headers and acknowledgment on
    settings frames"); the constants are declared in the frame package.
    [UNSET] is the flags byte with no flag set; [RecvResponse] tests the
    end-of-stream flag as the literal [0x1]. *)
Definition UNSET : Z := 0.
Definition ACK : Z := 1.
Definition END_STREAM : Z := 1.
Definition END_HEADERS : Z := 4.

(** Modelled from the spec: "the well-known default values for maximum
    concurrent streams and initial window size"; the scenario of the spec
    has "the default 65535". *)
Definition DEFAULT_WINDOW_SIZE : Z := 65535.

Abbreviation byte := Byte.byte.

(** A settings table, [map[SettingsID]int32] in [conn.go]. *)
Abbreviation SettingsTable := (gmap SettingsID Z).

(** A reference to a settings table. *)
Definition MapRef : Set := nat.

(** The store of settings tables. *)
Definition Heap : Type := MapRef -> SettingsTable.

Definition heap_write (h : Heap) (r : MapRef) (k : SettingsID) (v : Z) : Heap :=
  fun r' => if Nat.eqb r' r then <[k := v]> (h r) else h r'.

(** The header fields of a response, [http.Header]. *)
Abbreviation HttpHeader := (list (string * list string)).

(** The common header of every frame. *)
Record FrameHeader : Type := mkFrameHeader {
  Length : Z;
  FType : FrameType;
  Flags : Z;
  StreamID : N
}.

Record SettingsFrame : Type := mkSettingsFrame {
  sf_Header : FrameHeader;
  Settings : MapRef
}.

Record WindowUpdateFrame : Type := mkWindowUpdateFrame {
  wf_Header : FrameHeader;
  WindowSizeIncrement : Z
}.

Record HeadersFrame : Type := mkHeadersFrame {
  hf_Header : FrameHeader;
  Headers : HttpHeader;
  HeaderBlock : list byte
}.

Record DataFrame : Type := mkDataFrame {
  df_Header : FrameHeader;
  Data : list byte
}.

(** The interface [Frame]: a value of one of the concrete frame types.  The
    dynamic type of a frame and the [FType] field of its header are
    independent, as the type assertions of [ReadLoop] expect. *)
Inductive Frame : Type :=
  | FSettings (f : SettingsFrame)
  | FWindowUpdate (f : WindowUpdateFrame)
  | FHeaders (f : HeadersFrame)
  | FData (f : DataFrame)
  | FOther (h : FrameHeader).

Definition Header (f : Frame) : FrameHeader :=
  match f with
  | FSettings s => sf_Header s
  | FWindowUpdate w => wf_Header w
  | FHeaders h => hf_Header h
  | FData d => df_Header d
  | FOther h => h
  end.

(** Modelled from the spec: the constructors of the frame package.  A
    settings frame built from the empty table has an empty payload; a
    credit-update frame has a four-byte payload. *)
Definition NewSettingsFrame (flags : Z) (streamID : N) (settings : MapRef) : Frame :=
  FSettings {| sf_Header := mkFrameHeader 0 SettingsFrameType flags streamID;
               Settings := settings |}.

Definition NewWindowUpdateFrame (streamID : N) (incr : Z) : Frame :=
  FWindowUpdate {| wf_Header := mkFrameHeader 4 WindowUpdateFrameType 0 streamID;
                   WindowSizeIncrement := incr |}.

Definition NewHeadersFrame (flags : Z) (streamID : N) : HeadersFrame :=
  {| hf_Header := mkFrameHeader 0 HeadersFrameType flags streamID;
     Headers := [];
     HeaderBlock := [] |}.

Definition NewDataFrame (flags : Z) (streamID : N) : DataFrame :=
  {| df_Header := mkFrameHeader 0 DataFrameType flags streamID;
     Data := [] |}.

(** ** The package-level tables *)

(** The two package-level variables are two tables of the store. *)
Definition DefaultSettings : MapRef := 0%nat.
Definition NilSettings : MapRef := 1%nat.

(** The literal of [DefaultSettings]. *)
Definition DefaultSettings_init : SettingsTable :=
  <[SETTINGS_MAX_CONCURRENT_STREAMS := 100]>
    (<[SETTINGS_INITIAL_WINDOW_SIZE := DEFAULT_WINDOW_SIZE]> ∅).

(** The store when the package has been initialised: the two tables hold
    their literals, every other table is empty. *)
Definition initial_heap : Heap :=
  fun r => if Nat.eqb r DefaultSettings then DefaultSettings_init else ∅.

(** ** Flow-control windows, channels, streams and connections *)

(** The type [Window] is used by [conn.go] through its four fields, all of
    type [int32] there. *)
Record Window : Type := mkWindow {
  InitialSize : Z;
  CurrentSize : Z;
  PeerCurrentSize : Z;
  Threshold : Z
}.

Definition Window_wf (w : Window) : Prop :=
  Int32.is_int32 (InitialSize w) /\ Int32.is_int32 (CurrentSize w) /\
  Int32.is_int32 (PeerCurrentSize w) /\ Int32.is_int32 (Threshold w).

(** The three assignments that [HandleSettings] makes to a window when the
    initial window size changes ([conn.go], lines 81-83 for the connection
    and lines 88-90 for a stream):
<<
    w.PeerCurrentSize -= w.InitialSize
    w.PeerCurrentSize += initialWindowSize
    w.InitialSize = initialWindowSize
>> *)
Definition Rebase (initialWindowSize : Z) (w : Window) : Window :=
  let p1 := Int32.sub (PeerCurrentSize w) (InitialSize w) in
  let p2 := Int32.add p1 initialWindowSize in
  {| InitialSize := initialWindowSize;
     CurrentSize := CurrentSize w;
     PeerCurrentSize := p2;
     Threshold := Threshold w |}.

(** A channel of frames: the frames sent on it that the receiver has still
    to take, oldest first, and whether the channel has been closed. *)
Record Chan : Type := mkChan {
  queue : list Frame;
  closed : bool
}.

Definition make_chan : Chan := {| queue := []; closed := false |}.

(** The five states of a stream; [conn.go] names [CLOSED]. *)
Inductive State : Set :=
  | IDLE
  | OPEN
  | HALF_CLOSED_LOCAL
  | HALF_CLOSED_REMOTE
  | CLOSED.

Global Instance State_eq_dec : EqDecision State.
Proof. solve_decision. Defined.

(** The fields of a [Stream] that [conn.go] reads and writes. *)
Record Stream : Type := mkStream {
  stream_ID : N;
  stream_State : State;
  stream_Window : Window;
  stream_Settings : MapRef;
  stream_PeerSettings : MapRef;
  stream_ReadChan : Chan
}.

(** The connection.  [Streams] maps an identifier to a pointer to a stream;
    [None] is the nil pointer.  The stream objects of a table are distinct
    and the table is their only owner here, so an object is kept where its
    pointer is.  The transport, the header-compression context and the
    callback are not read by the functions below. *)
Record Conn : Type := mkConn {
  LastStreamID : N;
  conn_Window : Window;
  conn_Settings : MapRef;
  conn_PeerSettings : MapRef;
  Streams : gmap N (option Stream);
  WriteChan : Chan
}.

(** ** Effects: state, errors reported, panics *)

(** The calls of [Error] and [Fatal] of the logger. *)
Inductive LogEntry : Type :=
  | UnknownSettingsFlag (flags : Z)
  | FLOW_CONTROL_ERROR
  | ReadEOF_logged
  | FatalReadError
  | InvalidSettingsFrame
  | InvalidWindowUpdateFrame
  | ChangeStateError (e : string).

(** How a goroutine dies. *)
Inductive PanicKind : Set :=
  | NilDereference
  | SendOnClosedChannel
  | CloseOfClosedChannel
  | FatalExit.

(** The state that the functions of [conn.go] act upon: the connection, the
    store of settings tables, the errors reported so far (oldest first), and
    the stream objects that the table has let go of (their consumers still
    hold them). *)
Record St : Type := mkSt {
  conn : Conn;
  heap : Heap;
  errors : list LogEntry;
  detached : list Stream
}.

Inductive Res (A : Type) : Type :=
  | Ok (a : A) (σ : St)
  | Panic (p : PanicKind) (σ : St).
Arguments Ok {A} a σ.
Arguments Panic {A} p σ.

Definition M (A : Type) : Type := St -> Res A.

Definition state_of {A : Type} (r : Res A) : St :=
  match r with Ok _ σ => σ | Panic _ σ => σ end.

Global Instance M_ret : MRet M := fun A a σ => Ok a σ.
Global Instance M_bind : MBind M := fun A B f m σ =>
  match m σ with
  | Ok a σ' => f a σ'
  | Panic p σ' => Panic p σ'
  end.

Definition panic {A : Type} (p : PanicKind) : M A := fun σ => Panic p σ.
Definition get_conn : M Conn := fun σ => Ok (conn σ) σ.
Definition get_heap : M Heap := fun σ => Ok (heap σ) σ.
Definition modify_conn (f : Conn -> Conn) : M unit :=
  fun σ => Ok tt {| conn := f (conn σ); heap := heap σ;
                    errors := errors σ; detached := detached σ |}.
Definition modify_heap (f : Heap -> Heap) : M unit :=
  fun σ => Ok tt {| conn := conn σ; heap := f (heap σ);
                    errors := errors σ; detached := detached σ |}.
Definition Error (e : LogEntry) : M unit :=
  fun σ => Ok tt {| conn := conn σ; heap := heap σ;
                    errors := errors σ ++ [e]; detached := detached σ |}.
Definition detach (s : Stream) : M unit :=
  fun σ => Ok tt {| conn := conn σ; heap := heap σ;
                    errors := errors σ; detached := detached σ ++ [s] |}.

Fixpoint forM_ {A : Type} (l : list A) (f : A -> M unit) : M unit :=
  match l with
  | [] => mret tt
  | x :: l' => f x ;; forM_ l' f
  end.

(** Field updates of the connection. *)
Definition set_conn_Settings (r : MapRef) (c : Conn) : Conn :=
  {| LastStreamID := LastStreamID c; conn_Window := conn_Window c;
     conn_Settings := r; conn_PeerSettings := conn_PeerSettings c;
     Streams := Streams c; WriteChan := WriteChan c |}.
Definition set_conn_Window (w : Window) (c : Conn) : Conn :=
  {| LastStreamID := LastStreamID c; conn_Window := w;
     conn_Settings := conn_Settings c; conn_PeerSettings := conn_PeerSettings c;
     Streams := Streams c; WriteChan := WriteChan c |}.
Definition set_Streams (t : gmap N (option Stream)) (c : Conn) : Conn :=
  {| LastStreamID := LastStreamID c; conn_Window := conn_Window c;
     conn_Settings := conn_Settings c; conn_PeerSettings := conn_PeerSettings c;
     Streams := t; WriteChan := WriteChan c |}.
Definition set_WriteChan (ch : Chan) (c : Conn) : Conn :=
  {| LastStreamID := LastStreamID c; conn_Window := conn_Window c;
     conn_Settings := conn_Settings c; conn_PeerSettings := conn_PeerSettings c;
     Streams := Streams c; WriteChan := ch |}.
Definition set_LastStreamID (n : N) (c : Conn) : Conn :=
  {| LastStreamID := n; conn_Window := conn_Window c;
     conn_Settings := conn_Settings c; conn_PeerSettings := conn_PeerSettings c;
     Streams := Streams c; WriteChan := WriteChan c |}.

Definition set_stream_Window (w : Window) (s : Stream) : Stream :=
  {| stream_ID := stream_ID s; stream_State := stream_State s;
     stream_Window := w; stream_Settings := stream_Settings s;
     stream_PeerSettings := stream_PeerSettings s;
     stream_ReadChan := stream_ReadChan s |}.
Definition set_stream_ReadChan (ch : Chan) (s : Stream) : Stream :=
  {| stream_ID := stream_ID s; stream_State := stream_State s;
     stream_Window := stream_Window s; stream_Settings := stream_Settings s;
     stream_PeerSettings := stream_PeerSettings s;
     stream_ReadChan := ch |}.
Definition set_stream_State (st : State) (s : Stream) : Stream :=
  {| stream_ID := stream_ID s; stream_State := st;
     stream_Window := stream_Window s; stream_Settings := stream_Settings s;
     stream_PeerSettings := stream_PeerSettings s;
     stream_ReadChan := stream_ReadChan s |}.

(** [ch <- f]: a send on a closed channel panics. *)
Definition chan_send (f : Frame) (ch : Chan) : option Chan :=
  if closed ch then None
  else Some {| queue := queue ch ++ [f]; closed := false |}.

(** [close(ch)]: closing a closed channel panics. *)
Definition chan_close (ch : Chan) : option Chan :=
  if closed ch then None
  else Some {| queue := queue ch; closed := true |}.

(** [conn.WriteChan <- f] *)
Definition send_WriteChan (f : Frame) : M unit :=
  c ← get_conn;
  match chan_send f (WriteChan c) with
  | Some ch => modify_conn (set_WriteChan ch)
  | None => panic SendOnClosedChannel
  end.

(** ** [conn.go]: [HandleSettings] *)

(** The body of the loop over [conn.Streams]: the pointer of the entry is
    dereferenced, which panics when it is nil. *)
Definition apply_settings_to_stream (initialWindowSize : Z)
    (entry : N * option Stream) : M unit :=
  match entry.2 with
  | None => panic NilDereference
  | Some stream =>
      modify_conn (fun c =>
        set_Streams
          (<[entry.1 := Some (set_stream_Window
                               (Rebase initialWindowSize (stream_Window stream))
                               stream)]> (Streams c)) c) ;;
      modify_heap (fun h =>
        heap_write h (stream_PeerSettings stream)
                   SETTINGS_INITIAL_WINDOW_SIZE initialWindowSize)
  end.

(** Go leaves the order of a [range] over a map open; the entries are taken
    here in the order of [map_to_list]. *)
Definition HandleSettings (settingsFrame : SettingsFrame) : M unit :=
  if decide (Flags (sf_Header settingsFrame) = ACK) then
    mret tt
  else if decide (Flags (sf_Header settingsFrame) <> UNSET) then
    Error (UnknownSettingsFlag (Flags (sf_Header settingsFrame)))
  else
    let settings := Settings settingsFrame in
    modify_conn (set_conn_Settings settings) ;;
    h ← get_heap;
    match h settings !! SETTINGS_INITIAL_WINDOW_SIZE with
    | Some initialWindowSize =>
        if decide (initialWindowSize > 65535) then
          Error FLOW_CONTROL_ERROR
        else
          modify_conn (fun c =>
            set_conn_Window (Rebase initialWindowSize (conn_Window c)) c) ;;
          c ← get_conn;
          modify_heap (fun h =>
            heap_write h (conn_PeerSettings c)
                       SETTINGS_INITIAL_WINDOW_SIZE initialWindowSize) ;;
          forM_ (map_to_list (Streams c))
                (apply_settings_to_stream initialWindowSize) ;;
          send_WriteChan (NewSettingsFrame ACK 0 NilSettings)
    | None =>
        send_WriteChan (NewSettingsFrame ACK 0 NilSettings)
    end.

(** ** [conn.go]: [WindowUpdate] *)

Definition WindowUpdate (length : Z) : M unit :=
  modify_conn (fun c =>
    let w := conn_Window c in
    set_conn_Window
      {| InitialSize := InitialSize w;
         CurrentSize := Int32.sub (CurrentSize w) length;
         PeerCurrentSize := PeerCurrentSize w;
         Threshold := Threshold w |} c) ;;
  c ← get_conn;
  let w := conn_Window c in
  if decide (CurrentSize w < Threshold w) then
    let update := Int32.sub (InitialSize w) (CurrentSize w) in
    send_WriteChan (NewWindowUpdateFrame 0 (Int32.to_uint32 update)) ;;
    modify_conn (fun c =>
      let w := conn_Window c in
      set_conn_Window
        {| InitialSize := InitialSize w;
           CurrentSize := Int32.add (CurrentSize w) update;
           PeerCurrentSize := PeerCurrentSize w;
           Threshold := Threshold w |} c)
  else
    mret tt.

(** ** [conn.go]: [Close] *)

(** Modelled from the spec: the method [Close] of a stream is not among the
    sources.  "Setting a Stream to CLOSED and closing its inbound queue is
    the signal to terminate that Stream's consumer"; closing is idempotent
    ("idempotently closes every still-open Stream"). *)
Definition Stream_Close (s : Stream) : Stream :=
  {| stream_ID := stream_ID s;
     stream_State := CLOSED;
     stream_Window := stream_Window s;
     stream_Settings := stream_Settings s;
     stream_PeerSettings := stream_PeerSettings s;
     stream_ReadChan := {| queue := queue (stream_ReadChan s); closed := true |} |}.

(** The body of the loop of [Close]: a nil entry is skipped. *)
Definition close_stream (entry : N * option Stream) : M unit :=
  match entry.2 with
  | Some stream =>
      modify_conn (fun c =>
        set_Streams (<[entry.1 := Some (Stream_Close stream)]> (Streams c)) c)
  | None => mret tt
  end.

Definition Close : M unit :=
  c ← get_conn;
  forM_ (map_to_list (Streams c)) close_stream ;;
  c ← get_conn;
  match chan_close (WriteChan c) with
  | Some ch => modify_conn (set_WriteChan ch)
  | None => panic CloseOfClosedChannel
  end.

(** ** [conn.go]: [WriteLoop] *)

(** What [WriteLoop] has done when it can go no further: the frames written
    to the transport, in order, and whether it returned (with its error) or
    waits for the next frame of a channel that is still open. *)
Inductive WriteLoopEnd : Type :=
  | WriteLoopReturned (err : option string)
  | WriteLoopWaiting.

(** [write] is [frame.Write(conn.RW)]: the error of the transport, if any. *)
Fixpoint WriteLoop_from (write : Frame -> option string) (q : list Frame)
    (is_closed : bool) (written : list Frame) : list Frame * WriteLoopEnd :=
  match q with
  | [] => (written, if is_closed then WriteLoopReturned None else WriteLoopWaiting)
  | frame :: q' =>
      match write frame with
      | Some err => (written, WriteLoopReturned (Some err))
      | None => WriteLoop_from write q' is_closed (written ++ [frame])
      end
  end.

Definition WriteLoop (write : Frame -> option string) (c : Conn)
    : list Frame * WriteLoopEnd :=
  WriteLoop_from write (queue (WriteChan c)) (closed (WriteChan c)) [].

(** ** [conn.go]: [NewConn], [NewStream] and [ReadLoop] *)

(** What [ReadFrame] gives back: a frame, the end of the transport, or
    another error. *)
Inductive ReadResult : Type :=
  | ReadOk (frame : Frame)
  | ReadEOF
  | ReadError.

(** How one turn of the loop ends: the next statement is reached, or
    [continue], [break] or [return] was executed. *)
Inductive Control : Set :=
  | Next
  | LoopContinue
  | LoopBreak
  | LoopReturn.

(** [step1 ;; step2] for statements that may leave the turn early. *)
Definition and_then (s1 s2 : M Control) : M Control :=
  k ← s1;
  match k with
  | Next => s2
  | _ => mret k
  end.

Section ReadLoop.

(** Three functions of the package are called by [conn.go] and declared
    elsewhere in the package: the window of a fresh connection, the
    constructor of a stream (given the identifier and the two settings
    tables of the connection), and the state machine of a stream driven by
    a received frame.  They are parameters here; the latter two act on the
    stream only. *)
Variable NewWindowDefault : Window.
Variable NewStream : N -> MapRef -> MapRef -> Stream.
Variable ChangeState : Frame -> Stream -> Stream * option string.

Definition NewConn : Conn :=
  {| LastStreamID := 0;
     conn_Window := NewWindowDefault;
     conn_Settings := DefaultSettings;
     conn_PeerSettings := DefaultSettings;
     Streams := ∅;
     WriteChan := make_chan |}.

Definition conn_NewStream (c : Conn) (streamid : N) : Stream :=
  NewStream streamid (conn_Settings c) (conn_PeerSettings c).

(** Lines 116-124. *)
Definition step_settings (frame : Frame) : M Control :=
  if decide (FType (Header frame) = SettingsFrameType) then
    match frame with
    | FSettings settingsFrame => HandleSettings settingsFrame ;; mret Next
    | _ => Error InvalidSettingsFrame ;; mret LoopReturn
    end
  else mret Next.

(** Lines 126-134. *)
Definition step_window_update (frame : Frame) : M Control :=
  if decide (StreamID (Header frame) = 0%N /\
             FType (Header frame) = WindowUpdateFrameType) then
    match frame with
    | FWindowUpdate windowUpdateFrame =>
        modify_conn (fun c =>
          let w := conn_Window c in
          set_conn_Window
            {| InitialSize := InitialSize w;
               CurrentSize := CurrentSize w;
               PeerCurrentSize :=
                 Int32.add (PeerCurrentSize w)
                   (Int32.to_int32 (WindowSizeIncrement windowUpdateFrame));
               Threshold := Threshold w |} c) ;;
        mret Next
    | _ => Error InvalidWindowUpdateFrame ;; mret LoopReturn
    end
  else mret Next.

(** Lines 136-141. *)
Definition step_goaway (frame : Frame) : M Control :=
  if decide (FType (Header frame) = GoAwayFrameType) then
    Close ;; mret LoopBreak
  else mret Next.

(** Lines 143-147. *)
Definition step_data (frame : Frame) : M Control :=
  if decide (FType (Header frame) = DataFrameType) then
    WindowUpdate (Int32.to_int32 (Length (Header frame))) ;; mret Next
  else mret Next.

(** Lines 149-182.  A nil pointer found in the table is dereferenced by
    [ChangeState], and at the latest by the test of [stream.State]. *)
Definition step_stream (frame : Frame) : M Control :=
  let streamID := StreamID (Header frame) in
  if decide (streamID = 0%N) then mret LoopContinue
  else
    c ← get_conn;
    stream ← match Streams c !! streamID with
             | Some p => mret p
             | None =>
                 let stream := conn_NewStream c streamID in
                 modify_conn (fun c =>
                   set_Streams (<[streamID := Some stream]> (Streams c)) c) ;;
                 (if decide (LastStreamID c < streamID)%N
                  then modify_conn (set_LastStreamID streamID)
                  else mret tt) ;;
                 mret (Some stream)
             end;
    match stream with
    | None => panic NilDereference
    | Some stream =>
        let (stream, err) := ChangeState frame stream in
        match err with
        | Some e => Error (ChangeStateError e)
        | None => mret tt
        end ;;
        let removed := bool_decide (stream_State stream = CLOSED) in
        modify_conn (fun c =>
          set_Streams
            (<[streamID := if removed then None else Some stream]> (Streams c)) c) ;;
        match chan_send frame (stream_ReadChan stream) with
        | None =>
            (if removed then detach stream else mret tt) ;;
            panic SendOnClosedChannel
        | Some ch =>
            let stream := set_stream_ReadChan ch stream in
            (if removed then detach stream
             else modify_conn (fun c =>
                    set_Streams (<[streamID := Some stream]> (Streams c)) c)) ;;
            mret Next
        end
    end.

(** One turn of the loop of [ReadLoop]. *)
Definition ReadLoop_turn (r : ReadResult) : M Control :=
  match r with
  | ReadEOF => Error ReadEOF_logged ;; mret LoopBreak
  | ReadError => Error FatalReadError ;; panic FatalExit
  | ReadOk frame =>
      and_then (step_settings frame)
        (and_then (step_window_update frame)
           (and_then (step_goaway frame)
              (and_then (step_data frame)
                 (step_stream frame))))
  end.

(** The loop over what the transport delivers.  [true]: the loop has
    ended; [false]: it waits for more from the transport. *)
Fixpoint ReadLoop (input : list ReadResult) : M bool :=
  match input with
  | [] => mret false
  | r :: input' =>
      k ← ReadLoop_turn r;
      match k with
      | LoopBreak | LoopReturn => mret true
      | Next | LoopContinue => ReadLoop input'
      end
  end.

End ReadLoop.

(** ** [stream.go]: the request/response adapter

    [stream.go] declares a stream as an identifier, a connection and the
    request in flight, and talks to the connection through [WriteFrame],
    [ReadFrame] and [EncodeHeader]. *)

Module StreamGo.

(** The fields of [http.Request] that [SendRequest] reads; [Body] is what
    [ioutil.ReadAll(req.Body)] yields. *)
Record Request : Type := mkRequest {
  Method : string;
  req_Header : HttpHeader;
  Body : list byte
}.

(** The fields of the [http.Response] that [RecvResponse] builds from the
    frames.  The status line, which [strconv] and [net/http] compute from
    the header, is left out. *)
Record Response : Type := mkResponse {
  ProtoMajor : Z;
  ProtoMinor : Z;
  res_Header : HttpHeader;
  res_Body : list byte;
  ContentLength : Z;
  res_Request : option Request
}.

Section Adapter.

(** The header-compression context of the connection and its encoder:
    the block for a header list and the context afterwards. *)
Variable HpackContext : Type.
Variable EncodeHeader : HpackContext -> HttpHeader -> list byte * HpackContext.

(** Modelled from the spec: the connection as [stream.go] uses it.
    [WriteFrame] puts a frame on the single serialization point
    ("frames are written to the transport in the exact order they were
    enqueued"); [ReadFrame] takes the next decoded frame, and waits when
    there is none. *)
Record Conn : Type := mkConn {
  hpack : HpackContext;
  written : list Frame;
  incoming : list Frame
}.

Definition WriteFrame (frame : Frame) (c : Conn) : Conn :=
  {| hpack := hpack c; written := written c ++ [frame]; incoming := incoming c |}.

Definition conn_EncodeHeader (h : HttpHeader) (c : Conn) : list byte * Conn :=
  let (block, ctx) := EncodeHeader (hpack c) h in
  (block, {| hpack := ctx; written := written c; incoming := incoming c |}).

Record Stream : Type := mkStream {
  Id : N;
  stream_Conn : Conn;
  req : option Request
}.

Definition set_Conn (c : Conn) (s : Stream) : Stream :=
  {| Id := Id s; stream_Conn := c; req := req s |}.

Definition Send (frame : Frame) (s : Stream) : Stream :=
  set_Conn (WriteFrame frame (stream_Conn s)) s.

Definition uint16 (z : Z) : Z := z mod 2 ^ 16.

Definition len {A : Type} (l : list A) : Z := Z.of_nat (length l).

Definition set_Length (n : Z) (h : FrameHeader) : FrameHeader :=
  {| Length := n; FType := FType h; Flags := Flags h; StreamID := StreamID h |}.

(** The HEADERS frame of a request: lines 33-36 and 39-42. *)
Definition headers_frame (flags : Z) (request : Request) (s : Stream)
    : Frame * Stream :=
  let frame := NewHeadersFrame flags (Id s) in
  let headers := req_Header request in
  let (block, c) := conn_EncodeHeader headers (stream_Conn s) in
  (FHeaders {| hf_Header := set_Length (uint16 (len block)) (hf_Header frame);
               Headers := headers;
               HeaderBlock := block |},
   set_Conn c s).

Definition SendRequest (request : Request) (s : Stream) : Stream :=
  let s := {| Id := Id s; stream_Conn := stream_Conn s; req := Some request |} in
  if String.eqb (Method request) "GET" then
    let (frame, s) := headers_frame (END_STREAM + END_HEADERS) request s in
    Send frame s
  else if String.eqb (Method request) "POST" then
    let (frame, s) := headers_frame END_HEADERS request s in
    let s := Send frame s in
    let data := NewDataFrame 0 (Id s) in
    let body := Body request in
    let data := {| df_Header := set_Length (uint16 (len body)) (df_Header data);
                   Data := body |} in
    let s := Send (FData data) s in
    let data := NewDataFrame END_STREAM (Id s) in
    Send (FData data) s
  else s.

(** How [RecvResponse] ends: with a response, waiting for a frame that
    has not arrived, or in the panic of a failed type assertion. *)
Inductive Outcome : Type :=
  | Returned (res : Response) (s : Stream)
  | Waiting
  | TypeAssertionPanic.

Definition set_incoming (l : list Frame) (s : Stream) : Stream :=
  set_Conn {| hpack := hpack (stream_Conn s);
              written := written (stream_Conn s);
              incoming := l |} s.

Definition make_response (header : HttpHeader) (resBody : list byte)
    (s : Stream) : Response :=
  {| ProtoMajor := 2;
     ProtoMinor := 0;
     res_Header := header;
     res_Body := resBody;
     ContentLength := len resBody;
     res_Request := req s |}.

(** The loop of [RecvResponse], by recursion on the frames that
    [stream.Recv()] will deliver. *)
Fixpoint RecvResponse_loop (frames : list Frame) (c : Z)
    (header : HttpHeader) (resBody : list byte) (s : Stream) : Outcome :=
  match frames with
  | [] => Waiting
  | frame :: rest =>
      let frameHeader := Header frame in
      let header' :=
        if decide (FType frameHeader = HeadersFrameType) then
          match frame with
          | FHeaders headersFrame => Some (Headers headersFrame)
          | _ => None
          end
        else Some header in
      match header' with
      | None => TypeAssertionPanic
      | Some header =>
          let resBody' :=
            if decide (FType frameHeader = DataFrameType) then
              match frame with
              | FData dataFrame => Some (resBody ++ Data dataFrame)
              | _ => None
              end
            else Some resBody in
          match resBody' with
          | None => TypeAssertionPanic
          | Some resBody =>
              if decide (Flags frameHeader = 1) then
                Returned (make_response header resBody s) (set_incoming rest s)
              else if decide (c > 50) then
                Returned (make_response header resBody s) (set_incoming rest s)
              else
                RecvResponse_loop rest (c + 1) header resBody s
          end
      end
  end.

Definition RecvResponse (s : Stream) : Outcome :=
  RecvResponse_loop (incoming (stream_Conn s)) 0 [] [] s.

End Adapter.

Arguments mkConn {HpackContext} _ _ _.
Arguments hpack {HpackContext} _.
Arguments written {HpackContext} _.
Arguments incoming {HpackContext} _.
Arguments mkStream {HpackContext} _ _ _.
Arguments Id {HpackContext} _.
Arguments stream_Conn {HpackContext} _.
Arguments req {HpackContext} _.
Arguments Returned {HpackContext} _ _.
Arguments Waiting {HpackContext}.
Arguments TypeAssertionPanic {HpackContext}.
Arguments SendRequest {HpackContext} _ _ _.
Arguments RecvResponse {HpackContext} _.
Arguments RecvResponse_loop {HpackContext} _ _ _ _ _.
Arguments make_response {HpackContext} _ _ _.
Arguments set_incoming {HpackContext} _ _.

End StreamGo.


(** ** The parts of the package that [ReadLoop] is run with

    The theorems on [ReadLoop] hold for every stream constructor and every
    state machine.  To run the loop on concrete frames, the parameters are
    filled in as the specification describes them. *)

(** Modelled from the spec: the state machine of a stream for a received
    frame (section 4.2).  A stream-reset closes the stream from any state;
    the first HEADERS frame opens an idle stream, half-closed if it carries
    the end-of-stream flag; an end-of-stream flag from the peer half-closes
    an open stream and closes a stream that is half-closed locally; any
    other frame on an idle or a closed stream is a protocol error. *)
Definition ChangeState_spec (frame : Frame) (s : Stream) : Stream * option string :=
  let h := Header frame in
  let end_stream := Z.testbit (Flags h) 0 in
  if decide (FType h = RstStreamFrameType) then (set_stream_State CLOSED s, None)
  else
    match stream_State s with
    | IDLE =>
        if decide (FType h = HeadersFrameType) then
          (set_stream_State (if end_stream then HALF_CLOSED_REMOTE else OPEN) s, None)
        else (s, Some "protocol error: frame on an idle stream"%string)
    | OPEN =>
        (if end_stream then set_stream_State HALF_CLOSED_REMOTE s else s, None)
    | HALF_CLOSED_LOCAL =>
        (if end_stream then set_stream_State CLOSED s else s, None)
    | HALF_CLOSED_REMOTE => (s, None)
    | CLOSED => (s, Some "protocol error: frame on a closed stream"%string)
    end.

(** Modelled from the spec: a stream is created idle, with "its own
    Window", "a reference to the negotiated Settings/PeerSettings in
    effect at creation time" and an empty inbound queue. *)
Definition NewStream_spec (w : Window) (streamid : N)
    (settings peerSettings : MapRef) : Stream :=
  {| stream_ID := streamid;
     stream_State := IDLE;
     stream_Window := w;
     stream_Settings := settings;
     stream_PeerSettings := peerSettings;
     stream_ReadChan := make_chan |}.

(** A window with the default initial size and a low-water mark of 16384. *)
Definition sample_window : Window :=
  {| InitialSize := DEFAULT_WINDOW_SIZE;
     CurrentSize := DEFAULT_WINDOW_SIZE;
     PeerCurrentSize := DEFAULT_WINDOW_SIZE;
     Threshold := 16384 |}.

(** ** Sample inputs *)

Definition sample_stream (id : N) (st : State) : Stream :=
  {| stream_ID := id;
     stream_State := st;
     stream_Window := sample_window;
     stream_Settings := DefaultSettings;
     stream_PeerSettings := DefaultSettings;
     stream_ReadChan := make_chan |}.

(** A store in which table 2 is the parameter set of a frame that carries
    one parameter. *)
Definition heap_with (k : SettingsID) (v : Z) : Heap :=
  fun r => if Nat.eqb r 2 then <[k := v]> ∅ else initial_heap r.

Definition state_of_conn (c : Conn) (h : Heap) : St :=
  {| conn := c; heap := h; errors := []; detached := [] |}.

(** A fresh connection. *)
Definition fresh_conn : Conn := NewConn sample_window.

(** A connection with three open streams. *)
Definition conn_three_streams : Conn :=
  set_Streams
    (<[1%N := Some (sample_stream 1 OPEN)]>
       (<[3%N := Some (sample_stream 3 OPEN)]>
          (<[5%N := Some (sample_stream 5 OPEN)]> ∅)))
    (set_LastStreamID 5 fresh_conn).

(** A connection whose stream 1 has been closed by a received frame and
    whose stream 3 is open. *)
Definition conn_closed_stream : Conn :=
  set_Streams
    (<[1%N := None]> (<[3%N := Some (sample_stream 3 OPEN)]> ∅))
    (set_LastStreamID 3 fresh_conn).

(** A settings frame whose parameter set is table 2 of the store. *)
Definition settings_frame (flags : Z) : SettingsFrame :=
  {| sf_Header := mkFrameHeader 6 SettingsFrameType flags 0; Settings := 2%nat |}.

Definition rst_stream_frame (id : N) : Frame :=
  FOther (mkFrameHeader 4 RstStreamFrameType 0 id).

Definition goaway_frame : Frame :=
  FOther (mkFrameHeader 8 GoAwayFrameType 0 0).

Definition data_frame (id : N) (flags : Z) (payload : list byte) : Frame :=
  FData {| df_Header := mkFrameHeader (Z.of_nat (length payload)) DataFrameType flags id;
           Data := payload |}.

Definition headers_frame (id : N) (flags : Z) (h : HttpHeader) : Frame :=
  FHeaders {| hf_Header := mkFrameHeader 0 HeadersFrameType flags id;
              Headers := h; HeaderBlock := [] |}.

(** *** What [RecvResponse] is expected to build *)

(** The frame has the end-of-stream bit among its flags. *)
Definition carries_END_STREAM (f : Frame) : Prop :=
  Z.land (Flags (Header f)) END_STREAM = END_STREAM.

(** The dynamic type of a HEADERS or DATA frame is the one its header
    announces, so that the type assertions of [RecvResponse] succeed. *)
Definition well_typed (f : Frame) : Prop :=
  match FType (Header f), f with
  | HeadersFrameType, FHeaders _ => True
  | HeadersFrameType, _ => False
  | DataFrameType, FData _ => True
  | DataFrameType, _ => False
  | _, _ => True
  end.

(** The header fields of the last HEADERS frame of a list, [init] if there
    is none. *)
Definition last_headers (init : HttpHeader) (frames : list Frame) : HttpHeader :=
  foldl (fun h f =>
           match FType (Header f), f with
           | HeadersFrameType, FHeaders hf => Headers hf
           | _, _ => h
           end) init frames.

(** The payloads of the DATA frames of a list, one after the other. *)
Definition data_payloads (frames : list Frame) : list byte :=
  concat (omap (fun f =>
                  match FType (Header f), f with
                  | DataFrameType, FData df => Some (Data df)
                  | _, _ => None
                  end) frames).

(** Sample requests and an encoder that emits one byte per header field. *)
Definition sample_encoder (ctx : nat) (h : HttpHeader) : list byte * nat :=
  (repeat Byte.x82 (length h), S ctx).

Definition sample_request (method : string) (body : list byte) : StreamGo.Request :=
  {| StreamGo.Method := method;
     StreamGo.req_Header := [("host"%string, ["example.org"%string])];
     StreamGo.Body := body |}.

Definition sample_go_stream (incoming : list Frame) : StreamGo.Stream nat :=
  StreamGo.mkStream 1%N (StreamGo.mkConn 0%nat [] incoming) None.

(** The settings tables that the loop of [HandleSettings] writes to: the
    peer settings of the streams of the entries. *)
Definition stream_refs (l : list (N * option Stream)) : list MapRef :=
  omap (fun e : N * option Stream => stream_PeerSettings <$> e.2) l.

(** Two states that differ at most in the stream table and the store. *)
Definition same_outside_streams (σ σ' : St) : Prop :=
  conn_Window (conn σ') = conn_Window (conn σ) /\
  conn_Settings (conn σ') = conn_Settings (conn σ) /\
  conn_PeerSettings (conn σ') = conn_PeerSettings (conn σ) /\
  WriteChan (conn σ') = WriteChan (conn σ) /\
  LastStreamID (conn σ') = LastStreamID (conn σ) /\
  errors σ' = errors σ /\
  detached σ' = detached σ.

(** What the loop of [HandleSettings] does to a stream. *)
Definition rebase_stream (initialWindowSize : Z) (s : Stream) : Stream :=
  set_stream_Window (Rebase initialWindowSize (stream_Window s)) s.

(** ** [conn.go]: [WriteMagic] and [ReadMagic]

    The two functions use the connection through its transport [conn.RW]
    only, an [io.ReadWriter]. *)

Module Preface.

Global Instance byte_eq_dec : EqDecision byte := Byte.byte_eq_dec.

(** The constant of the package, ["PRI * HTTP/2.0\r\n\r\nSM\r\n\r\n"], as
    its 24 bytes. *)
Definition CONNECTION_PREFACE : list byte :=
  [Byte.x50; Byte.x52; Byte.x49; Byte.x20; Byte.x2a; Byte.x20;
   Byte.x48; Byte.x54; Byte.x54; Byte.x50; Byte.x2f; Byte.x32; Byte.x2e; Byte.x30;
   Byte.x0d; Byte.x0a; Byte.x0d; Byte.x0a;
   Byte.x53; Byte.x4d; Byte.x0d; Byte.x0a; Byte.x0d; Byte.x0a].

(** [make([]byte, n)] *)
Definition make_bytes (n : nat) : list byte := replicate n Byte.x00.

(** A read that delivers [data] into the buffer [buf]: the bytes go to the
    front of the buffer and the rest of the buffer is as it was. *)
Definition store (data buf : list byte) : list byte :=
  take (length buf) data ++ drop (length data) buf.

Section Magic.

(** The transport: its state, and its two methods.  [rw_Write p] gives the
    number of bytes written and the error; [rw_Read n] gives the bytes that
    a read into a buffer of length [n] delivers, and the error. *)
Variable RW : Type.
Variable rw_Write : list byte -> RW -> nat * option string * RW.
Variable rw_Read : nat -> RW -> list byte * option string * RW.

Definition WriteMagic (rw : RW) : option string * RW :=
  let '(_, err, rw) := rw_Write CONNECTION_PREFACE rw in
  match err with
  | Some e => (Some e, rw)
  | None => (None, rw)
  end.

Definition ReadMagic (rw : RW) : option string * RW :=
  let magic := make_bytes (length CONNECTION_PREFACE) in
  let '(data, err, rw) := rw_Read (length magic) rw in
  let magic := store data magic in
  match err with
  | Some e => (Some e, rw)
  | None =>
      if decide (magic <> CONNECTION_PREFACE)
      then (Some "Invalid Magic String"%string, rw)
      else (None, rw)
  end.

End Magic.

Arguments WriteMagic {RW} _ _.
Arguments ReadMagic {RW} _ _.

(** A sample transport: the bytes written and not yet read, delivered at
    most [chunk] at a time. *)
Definition buffer_Write (p : list byte) (rw : list byte)
    : nat * option string * list byte :=
  (length p, None, rw ++ p).

Definition buffer_Read (chunk : nat) (n : nat) (rw : list byte)
    : list byte * option string * list byte :=
  match rw with
  | [] => ([], Some "EOF"%string, [])
  | _ => (take (n `min` chunk) rw, None, drop (n `min` chunk) rw)
  end.

End Preface.

(** The credit that a frame on the outbound channel announces. *)
Definition increment_of (f : Frame) : Z :=
  match f with
  | FWindowUpdate w => WindowSizeIncrement w
  | _ => 0
  end.

(** A frame of the given type whose concrete type is another one, so that
    the type assertion of [ReadLoop] fails. *)
Definition assertion_fails (t : FrameType) (f : Frame) : Prop :=
  FType (Header f) = t /\
  match t, f with
  | SettingsFrameType, FSettings _ => False
  | WindowUpdateFrameType, FWindowUpdate _ => False
  | _, _ => True
  end.

(** The tables of the store differ at most in their initial window size. *)
Definition same_but_initial_window (σ σ' : St) : Prop :=
  forall (r : MapRef) (k : SettingsID),
    k <> SETTINGS_INITIAL_WINDOW_SIZE -> heap σ' r !! k = heap σ r !! k.

(** How the stream table and [LastStreamID] at the end of a run relate to
    those at its start: no identifier has left the table, [LastStreamID] has
    not gone down, identifier 0 has not come in, and identifiers that were
    bounded by [LastStreamID] still are. *)
Definition table_grows (σ σ' : St) : Prop :=
  (forall id, is_Some (Streams (conn σ) !! id) ->
              is_Some (Streams (conn σ') !! id)) /\
  (LastStreamID (conn σ) <= LastStreamID (conn σ'))%N /\
  (Streams (conn σ) !! 0%N = None -> Streams (conn σ') !! 0%N = None) /\
  ((forall id, is_Some (Streams (conn σ) !! id) ->
               (id <= LastStreamID (conn σ))%N) ->
   forall id, is_Some (Streams (conn σ') !! id) ->
              (id <= LastStreamID (conn σ'))%N).

(** * Properties *)

(** ** Fixed-width arithmetic *)

Lemma to_int32_range z : Int32.is_int32 (Int32.to_int32 z).
Proof.
  unfold Int32.is_int32, Int32.to_int32, Int32.min_signed, Int32.max_signed, Int32.modulus.
  pose proof (Z.mod_pos_bound (z + 2 ^ 31) (2 ^ 32) ltac:(lia)). lia.
Qed.

Lemma to_int32_id z : Int32.is_int32 z -> Int32.to_int32 z = z.
Proof.
  unfold Int32.is_int32, Int32.to_int32, Int32.min_signed, Int32.max_signed, Int32.modulus.
  intros H. rewrite Z.mod_small; lia.
Qed.

Lemma to_int32_add_l a b : Int32.to_int32 (Int32.to_int32 a + b) = Int32.to_int32 (a + b).
Proof.
  unfold Int32.to_int32, Int32.modulus.
  f_equal.
  replace ((a + 2 ^ 31) mod 2 ^ 32 - 2 ^ 31 + b + 2 ^ 31)
    with ((a + 2 ^ 31) mod 2 ^ 32 + b) by lia.
  rewrite Zplus_mod_idemp_l. f_equal. lia.
Qed.

Lemma to_int32_sub_l a b : Int32.to_int32 (Int32.to_int32 a - b) = Int32.to_int32 (a - b).
Proof. replace (Int32.to_int32 a - b) with (Int32.to_int32 a + - b) by lia.
  rewrite to_int32_add_l. f_equal; lia. Qed.

Lemma to_int32_add_r a b : Int32.to_int32 (a + Int32.to_int32 b) = Int32.to_int32 (a + b).
Proof. rewrite Z.add_comm, to_int32_add_l. f_equal; lia. Qed.


(** Rebasing in machine arithmetic is rebasing in the integers, wrapped
    once. *)
Lemma Rebase_PeerCurrentSize n w :
  PeerCurrentSize (Rebase n w) =
  Int32.to_int32 (PeerCurrentSize w + (n - InitialSize w)).
Proof.
  unfold Rebase, Int32.add, Int32.sub. simpl.
  rewrite to_int32_add_l. f_equal; lia.
Qed.

(** ** Rebasing twice *)

Lemma Rebase_there_and_back (w : Window) (new : Z) :
  Int32.is_int32 (PeerCurrentSize w) ->
  Rebase (InitialSize w) (Rebase new w) = w.
Proof.
  intros Hp.
  assert (E : PeerCurrentSize (Rebase (InitialSize w) (Rebase new w)) = PeerCurrentSize w).
  { rewrite !Rebase_PeerCurrentSize. simpl.
    rewrite to_int32_add_l.
    replace (PeerCurrentSize w + (new - InitialSize w) + (InitialSize w - new))
      with (PeerCurrentSize w) by lia.
    by apply to_int32_id. }
  destruct w as [i c p t]. unfold Rebase in *. simpl in *. by rewrite E.
Qed.

(** C9.  For every window and every new initial size, rebasing the window
    to the new size and then back to the size it had leaves the credit
    towards the peer, [PeerCurrentSize], as it was, and restores the whole
    window.  [HandleSettings] applies this one [Rebase] to the window of the
    connection and to the window of each stream. *)
Theorem C9_rebase_and_back_is_identity (w : Window) (new : Z) :
  Int32.is_int32 (PeerCurrentSize w) ->
  PeerCurrentSize (Rebase (InitialSize w) (Rebase new w)) = PeerCurrentSize w /\
  Rebase (InitialSize w) (Rebase new w) = w.
Proof.
  intros Hp. pose proof (Rebase_there_and_back w new Hp) as E.
  split; [by rewrite E|exact E].
Qed.

Lemma C9_rebase_and_back_witness :
  Int32.is_int32 (PeerCurrentSize sample_window) /\
  PeerCurrentSize (Rebase (InitialSize sample_window) (Rebase 20000 sample_window))
    = PeerCurrentSize sample_window.
Proof.
  assert (H : Int32.is_int32 (PeerCurrentSize sample_window)).
  { unfold Int32.is_int32, Int32.min_signed, Int32.max_signed. simpl.
    unfold DEFAULT_WINDOW_SIZE. lia. }
  split; [exact H|].
  exact (proj1 (C9_rebase_and_back_is_identity sample_window 20000 H)).
Defined.

(** ** [HandleSettings] *)

Ltac run_monad :=
  repeat progress
    (unfold send_WriteChan, mbind, M_bind, mret, M_ret, modify_conn,
       modify_heap, get_conn, get_heap, Error, detach, panic; simpl).

(** A frame with no flag set passes the two tests of the flags. *)
Lemma HandleSettings_unset (sf : SettingsFrame) (σ : St) :
  Flags (sf_Header sf) = UNSET ->
  HandleSettings sf σ =
  (let settings := Settings sf in
   modify_conn (set_conn_Settings settings) ;;
   h ← get_heap;
   match h settings !! SETTINGS_INITIAL_WINDOW_SIZE with
   | Some initialWindowSize =>
       if decide (initialWindowSize > 65535) then Error FLOW_CONTROL_ERROR
       else
         modify_conn (fun c =>
           set_conn_Window (Rebase initialWindowSize (conn_Window c)) c) ;;
         c ← get_conn;
         modify_heap (fun h =>
           heap_write h (conn_PeerSettings c)
                      SETTINGS_INITIAL_WINDOW_SIZE initialWindowSize) ;;
         forM_ (map_to_list (Streams c))
               (apply_settings_to_stream initialWindowSize) ;;
         send_WriteChan (NewSettingsFrame ACK 0 NilSettings)
   | None => send_WriteChan (NewSettingsFrame ACK 0 NilSettings)
   end) σ.
Proof.
  intros Hf. unfold HandleSettings. rewrite Hf.
  destruct (decide (UNSET = ACK)) as [E|_]; [discriminate E|].
  destruct (decide (UNSET <> UNSET)) as [E|_]; [by destruct E|].
  reflexivity.
Qed.

(** C1, as the code has it.  Take any settings frame whose parameter set
    has an initial window size above 65535.  When the frame has no flag
    set, [HandleSettings] reports the flow-control error and returns: no
    window, of the connection or of a stream, is changed, nothing is sent
    on the outbound channel, and the stream table and every settings table
    are as before.  When the frame carries a flag, the acknowledgment or
    any other, [HandleSettings] returns at its flag tests, before the
    parameters are looked at: no flow-control error is reported, a flag
    other than the acknowledgment is reported as unknown, and the
    connection and every settings table are as before. *)
Theorem C1_initial_window_too_large_aborts (sf : SettingsFrame) (σ : St) (w : Z) :
  heap σ (Settings sf) !! SETTINGS_INITIAL_WINDOW_SIZE = Some w ->
  w > 65535 ->
  (Flags (sf_Header sf) = UNSET ->
   exists σ',
     HandleSettings sf σ = Ok tt σ' /\
     errors σ' = errors σ ++ [FLOW_CONTROL_ERROR] /\
     conn_Window (conn σ') = conn_Window (conn σ) /\
     Streams (conn σ') = Streams (conn σ) /\
     WriteChan (conn σ') = WriteChan (conn σ) /\
     LastStreamID (conn σ') = LastStreamID (conn σ) /\
     heap σ' = heap σ /\
     detached σ' = detached σ) /\
  (Flags (sf_Header sf) <> UNSET ->
   exists σ',
     HandleSettings sf σ = Ok tt σ' /\
     errors σ' =
       (if decide (Flags (sf_Header sf) = ACK) then errors σ
        else errors σ ++ [UnknownSettingsFlag (Flags (sf_Header sf))]) /\
     conn σ' = conn σ /\
     heap σ' = heap σ /\
     detached σ' = detached σ).
Proof.
  intros Hw Hgt. split.
  - intros Hf. rewrite HandleSettings_unset by exact Hf.
    run_monad. rewrite Hw.
    destruct (decide (w > 65535)) as [_|Hn]; [|contradiction].
    eexists. split; [reflexivity|]. simpl. repeat split; reflexivity.
  - intros Hf. unfold HandleSettings.
    destruct (decide (Flags (sf_Header sf) = ACK)).
    + exists σ. repeat split.
    + destruct (decide (Flags (sf_Header sf) <> UNSET)); [|contradiction].
      eexists. split; [reflexivity|]. simpl. repeat split; reflexivity.
Qed.

(** The scenario of a peer that announces 70000 with three streams open,
    and the same parameters on a frame that carries the acknowledgment
    flag. *)
Lemma C1_initial_window_too_large_witness :
  (exists σ',
     HandleSettings (settings_frame UNSET)
       (state_of_conn conn_three_streams (heap_with SETTINGS_INITIAL_WINDOW_SIZE 70000))
       = Ok tt σ' /\
     errors σ' = [FLOW_CONTROL_ERROR] /\
     Streams (conn σ') = Streams conn_three_streams /\
     WriteChan (conn σ') = make_chan) /\
  (exists σ',
     HandleSettings (settings_frame ACK)
       (state_of_conn conn_three_streams (heap_with SETTINGS_INITIAL_WINDOW_SIZE 70000))
       = Ok tt σ' /\
     errors σ' = [] /\
     conn σ' = conn_three_streams).
Proof.
  split.
  - destruct (proj1 (C1_initial_window_too_large_aborts (settings_frame UNSET)
                       (state_of_conn conn_three_streams
                          (heap_with SETTINGS_INITIAL_WINDOW_SIZE 70000)) 70000
                       eq_refl eq_refl) eq_refl)
      as (σ' & H1 & H2 & _ & H4 & H5 & _).
    exists σ'. repeat split; assumption.
  - destruct (proj2 (C1_initial_window_too_large_aborts (settings_frame ACK)
                       (state_of_conn conn_three_streams
                          (heap_with SETTINGS_INITIAL_WINDOW_SIZE 70000)) 70000
                       eq_refl eq_refl) ltac:(discriminate))
      as (σ' & H1 & H2 & H3 & _).
    exists σ'. repeat split; assumption.
Defined.

(** C1 as it is stated fails on the scenario itself.  A frame with no flag
    set whose initial window size is 70000 is rejected with the
    flow-control error, and yet state from the frame has been applied to
    the connection: its parameter set was stored before the validation,
    so that the connection, which held the default table, now refers to
    the rejected parameter set. *)
Lemma C1_counterexample :
  let σ := state_of_conn conn_three_streams
             (heap_with SETTINGS_INITIAL_WINDOW_SIZE 70000) in
  Flags (sf_Header (settings_frame UNSET)) = UNSET /\
  heap σ (Settings (settings_frame UNSET)) !! SETTINGS_INITIAL_WINDOW_SIZE = Some 70000 /\
  70000 > 65535 /\
  errors (state_of (HandleSettings (settings_frame UNSET) σ)) = [FLOW_CONTROL_ERROR] /\
  conn_Settings (conn σ) = DefaultSettings /\
  conn_Settings (conn (state_of (HandleSettings (settings_frame UNSET) σ)))
    = Settings (settings_frame UNSET) /\
  conn (state_of (HandleSettings (settings_frame UNSET) σ)) <> conn σ.
Proof.
  simpl. repeat split; try reflexivity.
  intros H. apply (f_equal conn_Settings) in H. vm_compute in H. discriminate H.
Qed.

(** *** The loop over the streams *)

Lemma same_outside_streams_refl σ : same_outside_streams σ σ.
Proof. repeat split. Qed.

Lemma same_outside_streams_trans σ1 σ2 σ3 :
  same_outside_streams σ1 σ2 -> same_outside_streams σ2 σ3 ->
  same_outside_streams σ1 σ3.
Proof.
  unfold same_outside_streams. intros (?&?&?&?&?&?&?) (?&?&?&?&?&?&?).
  repeat split; congruence.
Qed.

Lemma apply_settings_to_stream_frame w e σ :
  same_outside_streams σ (state_of (apply_settings_to_stream w e σ)).
Proof.
  unfold apply_settings_to_stream. destruct (e.2); run_monad; repeat split.
Qed.

Lemma forM_frame {A : Type} (f : A -> M unit) (l : list A) :
  (forall x σ, same_outside_streams σ (state_of (f x σ))) ->
  forall σ, same_outside_streams σ (state_of (forM_ l f σ)).
Proof.
  intros Hf. induction l as [|x l IH]; intros σ; simpl.
  - apply same_outside_streams_refl.
  - unfold mbind, M_bind. specialize (Hf x σ).
    destruct (f x σ) as [[] σ1|p σ1]; simpl in *; [|exact Hf].
    eapply same_outside_streams_trans; [exact Hf|apply IH].
Qed.

(** A nil entry makes the loop panic. *)
Lemma forM_apply_settings_nil w (l : list (N * option Stream)) :
  (exists id, (id, None) ∈ l) ->
  forall σ, exists σ', forM_ l (apply_settings_to_stream w) σ = Panic NilDereference σ'.
Proof.
  induction l as [|[k v] l IH]; intros [id Hin] σ.
  - by apply elem_of_nil in Hin.
  - simpl. unfold mbind, M_bind.
    destruct v as [s|].
    + unfold apply_settings_to_stream at 1. run_monad.
      apply elem_of_cons in Hin as [Hin|Hin]; [discriminate Hin|].
      apply IH. by exists id.
    + unfold apply_settings_to_stream at 1. run_monad. by eexists.
Qed.

(** Without a nil entry the loop rebases the window of every stream of the
    list and writes the new size into the peer settings of each. *)
Lemma forM_apply_settings_ok w (l : list (N * option Stream)) :
  (forall id, (id, None) ∉ l) ->
  NoDup l.*1 ->
  forall σ, exists σ',
    forM_ l (apply_settings_to_stream w) σ = Ok tt σ' /\
    (forall k, Streams (conn σ') !! k =
       match (list_to_map l : gmap N (option Stream)) !! k with
       | Some v => Some (rebase_stream w <$> v)
       | None => Streams (conn σ) !! k
       end) /\
    (forall r, heap σ' r =
       if bool_decide (r ∈ stream_refs l)
       then <[SETTINGS_INITIAL_WINDOW_SIZE := w]> (heap σ r)
       else heap σ r).
Proof.
  induction l as [|[k0 v0] l IH]; intros Hnil Hnd σ.
  - exists σ. split; [reflexivity|]. split; intros; reflexivity.
  - apply NoDup_cons in Hnd as [Hk0 Hnd].
    destruct v0 as [s0|]; [|exfalso; apply (Hnil k0); left].
    simpl forM_. unfold mbind at 1, M_bind at 1.
    unfold apply_settings_to_stream at 1. run_monad.
    match goal with |- context [forM_ l _ ?σ1] =>
      destruct (IH (fun id H => Hnil id (list_elem_of_further _ _ _ H)) Hnd σ1)
        as (σ' & Hrun & Hs & Hh) end.
    exists σ'. split; [exact Hrun|]. split.
    + intros k. rewrite Hs. simpl.
      destruct (decide (k = k0)) as [->|Hne].
      * rewrite (not_elem_of_list_to_map_1 _ _ Hk0).
        by rewrite !lookup_insert_eq.
      * by rewrite !lookup_insert_ne by done.
    + intros r. rewrite Hh. simpl. unfold heap_write, stream_refs. simpl.
      fold (stream_refs l).
      destruct (Nat.eqb_spec r (stream_PeerSettings s0)) as [->|Hne].
      * rewrite (bool_decide_eq_true_2 (_ ∈ _ :: _)) by left.
        case_bool_decide; [by rewrite insert_insert_eq|reflexivity].
      * case_bool_decide as H1; case_bool_decide as H2; try reflexivity.
        -- exfalso. apply H2. by right.
        -- exfalso. apply elem_of_cons in H2 as [H2|H2]; [by apply Hne|by apply H1].
Qed.

Lemma map_to_list_no_nil (m : gmap N (option Stream)) :
  (forall id, m !! id <> Some None) -> forall id, (id, None) ∉ map_to_list m.
Proof. intros H id Hin. apply elem_of_map_to_list in Hin. by apply (H id). Qed.

(** *** The frame is accepted *)

(** The state in which the loop over the streams starts. *)
Lemma HandleSettings_accepted (sf : SettingsFrame) (σ : St) (w : Z) :
  Flags (sf_Header sf) = UNSET ->
  heap σ (Settings sf) !! SETTINGS_INITIAL_WINDOW_SIZE = Some w ->
  ~ w > 65535 ->
  HandleSettings sf σ =
  (forM_ (map_to_list (Streams (conn σ))) (apply_settings_to_stream w) ;;
   send_WriteChan (NewSettingsFrame ACK 0 NilSettings))
    {| conn := set_conn_Window (Rebase w (conn_Window (conn σ)))
                 (set_conn_Settings (Settings sf) (conn σ));
       heap := heap_write (heap σ) (conn_PeerSettings (conn σ))
                 SETTINGS_INITIAL_WINDOW_SIZE w;
       errors := errors σ;
       detached := detached σ |}.
Proof.
  intros Hf Hw Hle. rewrite HandleSettings_unset by exact Hf.
  unfold mbind, M_bind, modify_conn, modify_heap, get_conn, get_heap. simpl.
  rewrite Hw.
  destruct (decide (w > 65535)) as [Hgt|_]; [contradiction|]. reflexivity.
Qed.

Lemma send_WriteChan_frame f σ :
  conn_Settings (conn (state_of (send_WriteChan f σ))) = conn_Settings (conn σ) /\
  conn_PeerSettings (conn (state_of (send_WriteChan f σ))) = conn_PeerSettings (conn σ) /\
  conn_Window (conn (state_of (send_WriteChan f σ))) = conn_Window (conn σ) /\
  Streams (conn (state_of (send_WriteChan f σ))) = Streams (conn σ) /\
  heap (state_of (send_WriteChan f σ)) = heap σ.
Proof.
  run_monad. unfold chan_send.
  destruct (closed (WriteChan (conn σ))); simpl; repeat split.
Qed.

Lemma send_WriteChan_open f σ :
  closed (WriteChan (conn σ)) = false ->
  send_WriteChan f σ =
  Ok tt {| conn := set_WriteChan {| queue := queue (WriteChan (conn σ)) ++ [f];
                                    closed := false |} (conn σ);
           heap := heap σ; errors := errors σ; detached := detached σ |}.
Proof. intros H. run_monad. unfold chan_send. by rewrite H. Qed.

(** C5 on the code.  For every settings frame with no flag set, whatever
    its parameters and however the call ends, [HandleSettings] makes the
    parameter set of the frame the [Settings] of the connection, and the
    connection keeps the [PeerSettings] table it had. *)
Theorem C5_frame_replaces_Settings_not_PeerSettings (sf : SettingsFrame) (σ : St) :
  Flags (sf_Header sf) = UNSET ->
  conn_Settings (conn (state_of (HandleSettings sf σ))) = Settings sf /\
  conn_PeerSettings (conn (state_of (HandleSettings sf σ))) = conn_PeerSettings (conn σ).
Proof.
  intros Hf.
  destruct (heap σ (Settings sf) !! SETTINGS_INITIAL_WINDOW_SIZE) as [w|] eqn:Hw.
  - destruct (decide (w > 65535)) as [Hgt|Hle].
    + rewrite HandleSettings_unset by exact Hf. run_monad. rewrite Hw.
      destruct (decide (w > 65535)); [|contradiction]. by simpl.
    + rewrite (HandleSettings_accepted sf σ w Hf Hw Hle).
      unfold mbind, M_bind.
      match goal with |- context [forM_ ?l ?f ?σ1] =>
        pose proof (forM_frame f l (apply_settings_to_stream_frame w) σ1) as Hfr;
        destruct (forM_ l f σ1) as [[] σ2|p σ2] end;
        destruct Hfr as (_ & Hs & Hp & _); simpl in Hs, Hp.
      * destruct (send_WriteChan_frame (NewSettingsFrame ACK 0 NilSettings) σ2)
          as (E1 & E2 & _). by rewrite E1, E2.
      * by simpl.
  - rewrite HandleSettings_unset by exact Hf. run_monad. rewrite Hw.
    run_monad. unfold chan_send. by destruct (closed (WriteChan (conn σ))).
Qed.

Lemma C5_frame_replaces_Settings_witness :
  conn_Settings (conn (state_of (HandleSettings (settings_frame UNSET)
     (state_of_conn fresh_conn (heap_with SETTINGS_MAX_CONCURRENT_STREAMS 50)))))
    = 2%nat /\
  conn_PeerSettings (conn (state_of (HandleSettings (settings_frame UNSET)
     (state_of_conn fresh_conn (heap_with SETTINGS_MAX_CONCURRENT_STREAMS 50)))))
    = DefaultSettings.
Proof.
  exact (C5_frame_replaces_Settings_not_PeerSettings (settings_frame UNSET)
           (state_of_conn fresh_conn (heap_with SETTINGS_MAX_CONCURRENT_STREAMS 50))
           eq_refl).
Defined.

(** The peer announces a limit of 50 concurrent streams: afterwards the
    peer settings of the connection still have the default of 100, and it
    is the local settings that have 50. *)
Lemma HandleSettings_max_concurrent_streams_50 :
  let σ := state_of_conn fresh_conn (heap_with SETTINGS_MAX_CONCURRENT_STREAMS 50) in
  let σ' := state_of (HandleSettings (settings_frame UNSET) σ) in
  heap σ' (conn_PeerSettings (conn σ')) !! SETTINGS_MAX_CONCURRENT_STREAMS = Some 100 /\
  heap σ' (conn_Settings (conn σ')) !! SETTINGS_MAX_CONCURRENT_STREAMS = Some 50 /\
  heap σ (conn_Settings (conn σ)) !! SETTINGS_MAX_CONCURRENT_STREAMS = Some 100.
Proof. vm_compute. repeat split. Qed.

(** C2, where the code fails it.  For every settings frame with no flag set
    and an initial window size of at most 65535: when the stream table has
    a nil entry, the loop over the streams dereferences it and
    [HandleSettings] panics; nothing has been sent on the outbound
    channel. *)
Theorem C2_nil_entry_panics_without_ack (sf : SettingsFrame) (σ : St) (w : Z) (id : N) :
  Flags (sf_Header sf) = UNSET ->
  heap σ (Settings sf) !! SETTINGS_INITIAL_WINDOW_SIZE = Some w ->
  w <= 65535 ->
  Streams (conn σ) !! id = Some None ->
  exists σ',
    HandleSettings sf σ = Panic NilDereference σ' /\
    WriteChan (conn σ') = WriteChan (conn σ).
Proof.
  intros Hf Hw Hle Hnil.
  rewrite (HandleSettings_accepted sf σ w Hf Hw) by lia.
  unfold mbind, M_bind.
  match goal with |- context [forM_ ?l ?f ?σ1] =>
    pose proof (forM_frame f l (apply_settings_to_stream_frame w) σ1) as Hfr;
    destruct (forM_apply_settings_nil w l
                (ex_intro _ id (proj2 (elem_of_map_to_list _ _ _) Hnil)) σ1)
      as (σ' & Hrun) end.
  rewrite Hrun in *. exists σ'. split; [reflexivity|].
  destruct Hfr as (_ & _ & _ & Hch & _). exact Hch.
Qed.

Lemma C2_nil_entry_panics_witness :
  exists σ',
    HandleSettings (settings_frame UNSET)
      (state_of_conn conn_closed_stream (heap_with SETTINGS_INITIAL_WINDOW_SIZE 20000))
      = Panic NilDereference σ' /\
    WriteChan (conn σ') = make_chan.
Proof.
  apply (C2_nil_entry_panics_without_ack (settings_frame UNSET)
           (state_of_conn conn_closed_stream
              (heap_with SETTINGS_INITIAL_WINDOW_SIZE 20000)) 20000 1%N).
  - reflexivity.
  - reflexivity.
  - lia.
  - reflexivity.
Defined.

(** C2, where the code meets it.  When no entry of the stream table is nil
    and the outbound channel is open, a settings frame with no flag set and
    an initial window size [w] of at most 65535 rebases the window of the
    connection and the window of every stream to [w], writes [w] into the
    peer settings of the connection and of every stream, and then sends
    the acknowledgment, built from the empty table [NilSettings]. *)
Lemma HandleSettings_rebases_every_window (sf : SettingsFrame) (σ : St) (w : Z) :
  Flags (sf_Header sf) = UNSET ->
  heap σ (Settings sf) !! SETTINGS_INITIAL_WINDOW_SIZE = Some w ->
  w <= 65535 ->
  (forall id, Streams (conn σ) !! id <> Some None) ->
  closed (WriteChan (conn σ)) = false ->
  exists σ',
    HandleSettings sf σ = Ok tt σ' /\
    conn_Window (conn σ') = Rebase w (conn_Window (conn σ)) /\
    Streams (conn σ') =
      (fun v : option Stream => rebase_stream w <$> v) <$> Streams (conn σ) /\
    WriteChan (conn σ') =
      {| queue := queue (WriteChan (conn σ)) ++ [NewSettingsFrame ACK 0 NilSettings];
         closed := false |} /\
    (forall r, heap σ' r =
       if bool_decide (r ∈ conn_PeerSettings (conn σ)
                           :: stream_refs (map_to_list (Streams (conn σ))))
       then <[SETTINGS_INITIAL_WINDOW_SIZE := w]> (heap σ r)
       else heap σ r) /\
    errors σ' = errors σ.
Proof.
  intros Hf Hw Hle Hnil Hopen.
  rewrite (HandleSettings_accepted sf σ w Hf Hw) by lia.
  unfold mbind at 1, M_bind at 1.
  match goal with |- context [forM_ ?l ?f ?σ1] =>
    pose proof (forM_frame f l (apply_settings_to_stream_frame w) σ1) as Hfr;
    destruct (forM_apply_settings_ok w l (map_to_list_no_nil _ Hnil)
                (NoDup_fst_map_to_list _) σ1) as (σ2 & Hrun & Hs & Hh) end.
  rewrite Hrun in *. simpl in Hfr, Hs, Hh.
  destruct Hfr as (Hwin & _ & _ & Hch & _ & Herr & _). simpl in *.
  rewrite send_WriteChan_open by (rewrite Hch; exact Hopen).
  eexists. split; [reflexivity|]. simpl. repeat split.
  - exact Hwin.
  - apply map_eq. intros k. rewrite Hs, list_to_map_to_list, lookup_fmap.
    by destruct (Streams (conn σ) !! k).
  - by rewrite Hch.
  - intros r. rewrite Hh. unfold heap_write.
    destruct (Nat.eqb_spec r (conn_PeerSettings (conn σ))) as [->|Hne].
    + rewrite (bool_decide_eq_true_2 (_ ∈ _ :: _)) by left.
      case_bool_decide; [by rewrite insert_insert_eq|reflexivity].
    + case_bool_decide as H1; case_bool_decide as H2; try reflexivity.
      * exfalso. apply H2. by right.
      * exfalso. apply elem_of_cons in H2 as [H2|H2]; [by apply Hne|by apply H1].
  - exact Herr.
Qed.

(** In that case the new credit towards the peer is the old one plus
    [w - InitialSize], in the integers whenever the sum is an [int32]. *)
Lemma Rebase_exact (w : Z) (win : Window) :
  Int32.is_int32 (PeerCurrentSize win + (w - InitialSize win)) ->
  InitialSize (Rebase w win) = w /\
  PeerCurrentSize (Rebase w win) = PeerCurrentSize win + (w - InitialSize win).
Proof.
  intros H. split; [reflexivity|].
  rewrite Rebase_PeerCurrentSize. by apply to_int32_id.
Qed.

Lemma conn_three_streams_lookup (id : N) (v : option Stream) :
  Streams conn_three_streams !! id = Some v ->
  exists s, v = Some s /\ stream_Window s = sample_window.
Proof.
  simpl. intros H.
  destruct (decide (id = 1%N)) as [->|?];
    [rewrite lookup_insert_eq in H; inversion H; by eexists|].
  rewrite lookup_insert_ne in H by done.
  destruct (decide (id = 3%N)) as [->|?];
    [rewrite lookup_insert_eq in H; inversion H; by eexists|].
  rewrite lookup_insert_ne in H by done.
  destruct (decide (id = 5%N)) as [->|?];
    [rewrite lookup_insert_eq in H; inversion H; by eexists|].
  by rewrite lookup_insert_ne, lookup_empty in H by done.
Qed.

(** The scenario of the specification: the default is 65535, three streams
    are open and the peer sets the initial window size to 20000.  The
    credit of each stream and of the connection goes down by 45535, and
    the acknowledgment is on the outbound channel. *)
Lemma HandleSettings_three_streams_20000 :
  exists σ',
    HandleSettings (settings_frame UNSET)
      (state_of_conn conn_three_streams
         (heap_with SETTINGS_INITIAL_WINDOW_SIZE 20000)) = Ok tt σ' /\
    (forall id s, Streams conn_three_streams !! id = Some (Some s) ->
       exists s', Streams (conn σ') !! id = Some (Some s') /\
         InitialSize (stream_Window s') = 20000 /\
         PeerCurrentSize (stream_Window s') =
           PeerCurrentSize (stream_Window s) - 45535) /\
    PeerCurrentSize (conn_Window (conn σ')) =
      PeerCurrentSize (conn_Window conn_three_streams) - 45535 /\
    queue (WriteChan (conn σ')) = [NewSettingsFrame ACK 0 NilSettings] /\
    heap σ' NilSettings = ∅.
Proof.
  destruct (HandleSettings_rebases_every_window (settings_frame UNSET)
              (state_of_conn conn_three_streams
                 (heap_with SETTINGS_INITIAL_WINDOW_SIZE 20000)) 20000)
    as (σ' & Hrun & Hwin & Hs & Hch & Hh & _).
  - reflexivity.
  - reflexivity.
  - lia.
  - intros id Hid. apply conn_three_streams_lookup in Hid as (s & Hs & _).
    discriminate Hs.
  - reflexivity.
  - exists σ'. split; [exact Hrun|]. repeat split.
    + intros id s Hid. rewrite Hs, lookup_fmap.
      change (Streams (conn (state_of_conn conn_three_streams
                (heap_with SETTINGS_INITIAL_WINDOW_SIZE 20000))))
        with (Streams conn_three_streams).
      rewrite Hid. simpl.
      eexists. split; [reflexivity|]. split; [reflexivity|].
      apply conn_three_streams_lookup in Hid as (s0 & E & Hw0).
      inversion E; subst s0. simpl. rewrite Hw0. reflexivity.
    + rewrite Hwin. reflexivity.
    + rewrite Hch. reflexivity.
    + rewrite Hh. reflexivity.
Qed.

(** ** [NewConn] and the default table *)

(** C10 on the code.  A connection made by [NewConn] has the package-level
    table [DefaultSettings] itself as its [Settings] and as its
    [PeerSettings].  So when a connection made by [NewConn] handles a
    settings frame with an initial window size [w] of at most 65535, the
    write to its peer settings changes [DefaultSettings], and with it the
    peer settings and the local settings of every other connection made by
    [NewConn]. *)
Theorem C10_NewConn_shares_DefaultSettings (NewWindowDefault : Window)
    (sf : SettingsFrame) (h : Heap) (w : Z) :
  Flags (sf_Header sf) = UNSET ->
  h (Settings sf) !! SETTINGS_INITIAL_WINDOW_SIZE = Some w ->
  w <= 65535 ->
  let c1 := NewConn NewWindowDefault in
  let c2 := NewConn NewWindowDefault in
  conn_Settings c1 = DefaultSettings /\
  conn_PeerSettings c1 = DefaultSettings /\
  exists σ',
    HandleSettings sf (state_of_conn c1 h) = Ok tt σ' /\
    heap σ' DefaultSettings !! SETTINGS_INITIAL_WINDOW_SIZE = Some w /\
    heap σ' (conn_PeerSettings c2) !! SETTINGS_INITIAL_WINDOW_SIZE = Some w /\
    heap σ' (conn_Settings c2) !! SETTINGS_INITIAL_WINDOW_SIZE = Some w.
Proof.
  intros Hf Hw Hle c1 c2. split; [reflexivity|]. split; [reflexivity|].
  assert (Hnil : forall id, Streams (conn (state_of_conn c1 h)) !! id <> Some None).
  { intros id. simpl. by rewrite lookup_empty. }
  destruct (HandleSettings_rebases_every_window sf (state_of_conn c1 h) w
              Hf Hw Hle Hnil eq_refl)
    as (σ' & Hrun & _ & _ & _ & Hh & _).
  - exists σ'. split; [exact Hrun|].
    assert (E : heap σ' DefaultSettings !! SETTINGS_INITIAL_WINDOW_SIZE = Some w).
    { rewrite Hh.
      rewrite (bool_decide_eq_true_2 (_ ∈ _ :: _)) by left.
      apply lookup_insert_eq. }
    repeat split; exact E.
Qed.

(** The default initial window size is 65535 when the package starts; after
    one connection has handled a frame that sets 20000, the default table,
    and so a second connection, has 20000. *)
Lemma C10_NewConn_shares_DefaultSettings_witness :
  initial_heap DefaultSettings !! SETTINGS_INITIAL_WINDOW_SIZE = Some 65535 /\
  exists σ',
    HandleSettings (settings_frame UNSET)
      (state_of_conn (NewConn sample_window)
         (heap_with SETTINGS_INITIAL_WINDOW_SIZE 20000)) = Ok tt σ' /\
    heap σ' DefaultSettings !! SETTINGS_INITIAL_WINDOW_SIZE = Some 20000 /\
    heap σ' (conn_PeerSettings (NewConn sample_window))
      !! SETTINGS_INITIAL_WINDOW_SIZE = Some 20000.
Proof.
  split; [reflexivity|].
  destruct (C10_NewConn_shares_DefaultSettings sample_window (settings_frame UNSET)
              (heap_with SETTINGS_INITIAL_WINDOW_SIZE 20000) 20000
              eq_refl eq_refl ltac:(lia))
    as (_ & _ & σ' & H1 & H2 & H3 & _).
  exists σ'. repeat split; assumption.
Defined.

(** ** [WindowUpdate] and the DATA frames of [ReadLoop] *)

Lemma WindowUpdate_open (length : Z) (σ : St) :
  closed (WriteChan (conn σ)) = false ->
  let w := conn_Window (conn σ) in
  let cur := Int32.sub (CurrentSize w) length in
  let update := Int32.sub (InitialSize w) cur in
  WindowUpdate length σ =
  Ok tt
    (if decide (cur < Threshold w) then
       {| conn :=
            {| LastStreamID := LastStreamID (conn σ);
               conn_Window :=
                 {| InitialSize := InitialSize w;
                    CurrentSize := Int32.add cur update;
                    PeerCurrentSize := PeerCurrentSize w;
                    Threshold := Threshold w |};
               conn_Settings := conn_Settings (conn σ);
               conn_PeerSettings := conn_PeerSettings (conn σ);
               Streams := Streams (conn σ);
               WriteChan :=
                 {| queue := queue (WriteChan (conn σ))
                               ++ [NewWindowUpdateFrame 0 (Int32.to_uint32 update)];
                    closed := false |} |};
          heap := heap σ; errors := errors σ; detached := detached σ |}
     else
       {| conn :=
            {| LastStreamID := LastStreamID (conn σ);
               conn_Window :=
                 {| InitialSize := InitialSize w;
                    CurrentSize := cur;
                    PeerCurrentSize := PeerCurrentSize w;
                    Threshold := Threshold w |};
               conn_Settings := conn_Settings (conn σ);
               conn_PeerSettings := conn_PeerSettings (conn σ);
               Streams := Streams (conn σ);
               WriteChan := WriteChan (conn σ) |};
          heap := heap σ; errors := errors σ; detached := detached σ |}).
Proof.
  intros Hopen w cur update. unfold WindowUpdate. run_monad.
  fold w. fold cur.
  destruct (decide (cur < Threshold w)) as [Hlt|Hge].
  - run_monad. unfold chan_send. rewrite Hopen. reflexivity.
  - reflexivity.
Qed.

(** Adding back what was missing gives the initial size. *)
Lemma replenish_to_initial (initial cur : Z) :
  Int32.is_int32 initial ->
  Int32.add cur (Int32.sub initial cur) = initial.
Proof.
  intros H. unfold Int32.add, Int32.sub.
  rewrite to_int32_add_r.
  replace (cur + (initial - cur)) with initial by lia.
  by apply to_int32_id.
Qed.





(** ** The stream table of [ReadLoop] *)

(** C4 on the code.  For every frame with a nonzero stream identifier whose
    stream, found in the table or created for it, is in the state [CLOSED]
    after [ChangeState]: the table keeps an entry for the identifier, the
    nil pointer.  A later frame with that identifier therefore finds an
    entry, no stream is created for it, and the turn dies dereferencing
    nil, the table being as it was. *)
Theorem C4_closed_stream_left_as_nil_entry NewStream ChangeState
    (frame : Frame) (σ : St) (s0 : Stream) :
  let id := StreamID (Header frame) in
  id <> 0%N ->
  (Streams (conn σ) !! id = Some (Some s0) \/
   (Streams (conn σ) !! id = None /\ s0 = conn_NewStream NewStream (conn σ) id)) ->
  stream_State (ChangeState frame s0).1 = CLOSED ->
  let σ' := state_of (step_stream NewStream ChangeState frame σ) in
  Streams (conn σ') !! id = Some None /\
  forall frame2, StreamID (Header frame2) = id ->
    step_stream NewStream ChangeState frame2 σ' = Panic NilDereference σ'.
Proof.
  intros id Hid Hs0 Hclosed σ'.
  assert (Hnil : Streams (conn σ') !! id = Some None).
  { unfold σ', step_stream. fold id.
    destruct (decide (id = 0%N)) as [E|_]; [contradiction|].
    run_monad.
    destruct Hs0 as [Hs0|[Hs0 ->]]; rewrite Hs0; run_monad.
    - destruct (ChangeState frame s0) as [s' e]. simpl in Hclosed.
      rewrite (bool_decide_eq_true_2 _ Hclosed).
      destruct e; run_monad; unfold chan_send;
        destruct (closed (stream_ReadChan s')); run_monad;
        apply lookup_insert_eq.
    - unfold conn_NewStream in Hclosed.
      destruct (decide (LastStreamID (conn σ) < id)%N); run_monad;
        destruct (ChangeState frame _) as [s' e]; simpl in Hclosed;
        rewrite (bool_decide_eq_true_2 _ Hclosed);
        destruct e; run_monad; unfold chan_send;
        destruct (closed (stream_ReadChan s')); run_monad;
        apply lookup_insert_eq. }
  split; [exact Hnil|].
  intros frame2 H2. unfold step_stream. rewrite H2.
  destruct (decide (id = 0%N)) as [E|_]; [contradiction|].
  run_monad. rewrite Hnil. by destruct σ'.
Qed.

(** A reset of the open stream 3 closes it; its entry becomes nil, and a
    HEADERS frame that names 3 afterwards kills the turn. *)
Lemma C4_closed_stream_left_as_nil_witness :
  let σ := state_of_conn conn_three_streams initial_heap in
  let σ' := state_of (step_stream (NewStream_spec sample_window) ChangeState_spec
                        (rst_stream_frame 3) σ) in
  Streams (conn σ') !! 3%N = Some None /\
  step_stream (NewStream_spec sample_window) ChangeState_spec
    (headers_frame 3 END_HEADERS []) σ' = Panic NilDereference σ'.
Proof.
  intros σ σ'.
  destruct (C4_closed_stream_left_as_nil_entry (NewStream_spec sample_window)
              ChangeState_spec (rst_stream_frame 3) σ (sample_stream 3 OPEN))
    as [H1 H2].
  - discriminate.
  - left. reflexivity.
  - reflexivity.
  - split; [exact H1|]. apply H2. reflexivity.
Defined.

(** The same on the loop itself, from a fresh connection: the first HEADERS
    frame for stream 1 creates the stream and is handed to it; but once a
    reset has closed stream 1, the loop dies on the next frame for it. *)
Lemma ReadLoop_frame_after_close_panics :
  let σ := state_of_conn fresh_conn initial_heap in
  let run := ReadLoop (NewStream_spec sample_window) ChangeState_spec in
  (exists σ1, run [ReadOk (headers_frame 1 END_HEADERS [])] σ = Ok false σ1 /\
     exists s, Streams (conn σ1) !! 1%N = Some (Some s) /\
       queue (stream_ReadChan s) = [headers_frame 1 END_HEADERS []]) /\
  (exists σ2, run [ReadOk (headers_frame 1 END_HEADERS []);
                   ReadOk (rst_stream_frame 1);
                   ReadOk (headers_frame 1 END_HEADERS [])] σ
              = Panic NilDereference σ2 /\
     Streams (conn σ2) !! 1%N = Some None).
Proof.
  split.
  - eexists. split; [vm_compute; reflexivity|].
    eexists. split; vm_compute; reflexivity.
  - eexists. split; vm_compute; reflexivity.
Qed.

(** And a settings frame after the close: the nil entry that the loop has
    left kills [HandleSettings], and no acknowledgment is sent. *)
Lemma ReadLoop_settings_after_close_panics :
  let σ := state_of_conn fresh_conn (heap_with SETTINGS_INITIAL_WINDOW_SIZE 20000) in
  exists σ',
    ReadLoop (NewStream_spec sample_window) ChangeState_spec
      [ReadOk (headers_frame 1 END_HEADERS []);
       ReadOk (rst_stream_frame 1);
       ReadOk (FSettings (settings_frame UNSET))] σ
    = Panic NilDereference σ' /\
    queue (WriteChan (conn σ')) = [].
Proof. eexists. split; vm_compute; reflexivity. Qed.

(** ** [Close] and the termination frame *)

Lemma forM_close_stream_ok (l : list (N * option Stream)) :
  NoDup l.*1 ->
  forall σ,
    (forall k v, (k, v) ∈ l -> Streams (conn σ) !! k = Some v) ->
    exists σ',
      forM_ l close_stream σ = Ok tt σ' /\
      (forall k, Streams (conn σ') !! k =
         match (list_to_map l : gmap N (option Stream)) !! k with
         | Some v => Some (Stream_Close <$> v)
         | None => Streams (conn σ) !! k
         end) /\
      same_outside_streams σ σ' /\
      heap σ' = heap σ.
Proof.
  induction l as [|[k0 v0] l IH]; intros Hnd σ Hin.
  - exists σ. repeat split.
  - apply NoDup_cons in Hnd as [Hk0 Hnd].
    simpl forM_. unfold mbind at 1, M_bind at 1.
    assert (Hne : forall k v, (k, v) ∈ l -> k <> k0).
    { intros k v Hkv ->. apply Hk0. apply list_elem_of_fmap. by exists (k0, v). }
    destruct v0 as [s0|]; unfold close_stream at 1; run_monad.
    + match goal with |- context [forM_ l _ ?σ1] =>
        destruct (IH Hnd σ1) as (σ' & Hrun & Hs & Hfr & Hh) end.
      { intros k v Hkv. simpl. rewrite lookup_insert_ne by (symmetry; by eapply Hne).
        apply Hin. by right. }
      exists σ'. split; [exact Hrun|]. split; [|split; [exact Hfr|exact Hh]].
      intros k. rewrite Hs. simpl.
      destruct (decide (k = k0)) as [->|Hk].
      * rewrite (not_elem_of_list_to_map_1 _ _ Hk0). by rewrite !lookup_insert_eq.
      * by rewrite !lookup_insert_ne by done.
    + destruct (IH Hnd σ) as (σ' & Hrun & Hs & Hfr & Hh).
      { intros k v Hkv. apply Hin. by right. }
      destruct σ as [c h e d]. simpl in *.
      exists σ'. split; [exact Hrun|]. split; [|split; [exact Hfr|exact Hh]].
      intros k. rewrite Hs.
      destruct (decide (k = k0)) as [->|Hk].
      * rewrite (not_elem_of_list_to_map_1 _ _ Hk0), lookup_insert_eq.
        apply (Hin k0 None). left.
      * by rewrite lookup_insert_ne by done.
Qed.

(** [Close] on an open outbound channel: every stream of the table is
    closed, a nil entry stays nil, and the channel is closed with its
    frames still in it. *)
Lemma Close_open (σ : St) :
  closed (WriteChan (conn σ)) = false ->
  exists σ',
    Close σ = Ok tt σ' /\
    Streams (conn σ') =
      (fun v : option Stream => Stream_Close <$> v) <$> Streams (conn σ) /\
    WriteChan (conn σ') = {| queue := queue (WriteChan (conn σ)); closed := true |} /\
    conn_Window (conn σ') = conn_Window (conn σ) /\
    errors σ' = errors σ /\
    heap σ' = heap σ.
Proof.
  intros Hopen. unfold Close. unfold mbind at 1, M_bind at 1, get_conn at 1.
  unfold mbind at 1, M_bind at 1.
  destruct (forM_close_stream_ok (map_to_list (Streams (conn σ)))
              (NoDup_fst_map_to_list _) σ) as (σ1 & Hrun & Hs & Hfr & Hh).
  { intros k v. apply elem_of_map_to_list. }
  rewrite Hrun. destruct Hfr as (Hw & _ & _ & Hch & _ & He & _).
  run_monad. unfold chan_close. rewrite Hch, Hopen.
  eexists. split; [reflexivity|]. simpl. repeat split; try assumption.
  apply map_eq. intros k. rewrite Hs, list_to_map_to_list, lookup_fmap.
  by destruct (Streams (conn σ) !! k).
Qed.

Lemma ReadLoop_turn_goaway NewStream ChangeState (frame : Frame) (σ : St) :
  FType (Header frame) = GoAwayFrameType ->
  ReadLoop_turn NewStream ChangeState (ReadOk frame) σ =
  (Close ;; mret LoopBreak) σ.
Proof.
  intros Ht. unfold ReadLoop_turn, and_then, step_settings, step_window_update,
    step_goaway.
  rewrite Ht.
  destruct (decide (GoAwayFrameType = SettingsFrameType)) as [E|_]; [discriminate E|].
  destruct (decide (_ /\ GoAwayFrameType = WindowUpdateFrameType)) as [[_ E]|_];
    [discriminate E|].
  destruct (decide (GoAwayFrameType = GoAwayFrameType)) as [_|E]; [|by destruct E].
  unfold mbind, M_bind, mret, M_ret.
  by destruct (Close σ) as [[] ?|? ?].
Qed.

(** [WriteLoop] on a closed channel returns; when no write fails it has
    written every frame of the channel, in order. *)
Lemma WriteLoop_from_closed write (q written : list Frame) :
  exists out err,
    WriteLoop_from write q true written = (out, WriteLoopReturned err) /\
    ((forall f, f ∈ q -> write f = None) -> out = written ++ q /\ err = None).
Proof.
  revert written. induction q as [|f q IH]; intros written; simpl.
  - exists written, None. split; [reflexivity|]. intros _. by rewrite app_nil_r.
  - destruct (write f) as [e|] eqn:Hf.
    + exists written, (Some e). split; [reflexivity|].
      intros H. rewrite (H f) in Hf by left. discriminate Hf.
    + destruct (IH (written ++ [f])) as (out & err & Hrun & Hall).
      exists out, err. split; [exact Hrun|].
      intros H. destruct Hall as [-> ->]; [intros g Hg; apply H; by right|].
      by rewrite <- app_assoc.
Qed.

Lemma ReadLoop_cons NewStream ChangeState (r : ReadResult)
    (input : list ReadResult) (σ : St) :
  ReadLoop NewStream ChangeState (r :: input) σ =
  match ReadLoop_turn NewStream ChangeState r σ with
  | Ok k σ' =>
      match k with
      | LoopBreak | LoopReturn => Ok true σ'
      | Next | LoopContinue => ReadLoop NewStream ChangeState input σ'
      end
  | Panic p σ' => Panic p σ'
  end.
Proof.
  simpl. unfold mbind, M_bind.
  destruct (ReadLoop_turn NewStream ChangeState r σ) as [[] ?|? ?]; reflexivity.
Qed.

(** C8.  Whenever [ReadLoop] reads a frame of type GOAWAY while the outbound
    channel is open, whatever streams are in the table: the loop ends
    without reading further; every stream of the table has been closed, so
    that it is [CLOSED] and its inbound channel is closed; the outbound
    channel is closed with the frames that were on it, and [WriteLoop] on
    it returns, having written all of them in order when no write fails. *)
Theorem C8_goaway_closes_connection NewStream ChangeState
    (frame : Frame) (input : list ReadResult) (σ : St) :
  FType (Header frame) = GoAwayFrameType ->
  closed (WriteChan (conn σ)) = false ->
  exists σ',
    ReadLoop NewStream ChangeState (ReadOk frame :: input) σ = Ok true σ' /\
    Streams (conn σ') =
      (fun v : option Stream => Stream_Close <$> v) <$> Streams (conn σ) /\
    (forall id s, Streams (conn σ') !! id = Some (Some s) ->
       stream_State s = CLOSED /\ closed (stream_ReadChan s) = true) /\
    WriteChan (conn σ') = {| queue := queue (WriteChan (conn σ)); closed := true |} /\
    (forall write, exists out err,
       WriteLoop write (conn σ') = (out, WriteLoopReturned err) /\
       ((forall f, f ∈ queue (WriteChan (conn σ)) -> write f = None) ->
        out = queue (WriteChan (conn σ)) /\ err = None)).
Proof.
  intros Ht Hopen.
  destruct (Close_open σ Hopen) as (σ' & Hrun & Hs & Hch & _).
  exists σ'. split; [|split; [exact Hs|split; [|split; [exact Hch|]]]].
  - rewrite ReadLoop_cons, ReadLoop_turn_goaway by exact Ht.
    unfold mbind, M_bind. rewrite Hrun. reflexivity.
  - intros id s. rewrite Hs, lookup_fmap.
    destruct (Streams (conn σ) !! id) as [[s0|]|]; simpl; intros E;
      inversion E; subst s. by split.
  - intros write. unfold WriteLoop. rewrite Hch. simpl.
    apply (WriteLoop_from_closed write (queue (WriteChan (conn σ))) []).
Qed.

(** Three streams are open and one frame waits on the outbound channel
    when the termination frame arrives. *)
Lemma C8_goaway_closes_connection_witness :
  let c := set_WriteChan {| queue := [NewWindowUpdateFrame 0 100]; closed := false |}
             conn_three_streams in
  exists σ',
    ReadLoop (NewStream_spec sample_window) ChangeState_spec
      [ReadOk goaway_frame; ReadOk (rst_stream_frame 1)]
      (state_of_conn c initial_heap) = Ok true σ' /\
    (forall id s, Streams (conn σ') !! id = Some (Some s) ->
       stream_State s = CLOSED /\ closed (stream_ReadChan s) = true) /\
    WriteChan (conn σ') = {| queue := [NewWindowUpdateFrame 0 100]; closed := true |}.
Proof.
  intros c.
  destruct (C8_goaway_closes_connection (NewStream_spec sample_window)
              ChangeState_spec goaway_frame [ReadOk (rst_stream_frame 1)]
              (state_of_conn c initial_heap) eq_refl eq_refl)
    as (σ' & H1 & _ & H3 & H4 & _).
  exists σ'. repeat split; try assumption; by apply (H3 id s).
Defined.

(** ** [stream.go]: [SendRequest] *)




(** A request with another method is stored on the stream and nothing is
    written. *)
Lemma SendRequest_other_method (HpackContext : Type)
    (EncodeHeader : HpackContext -> HttpHeader -> list byte * HpackContext)
    (request : StreamGo.Request) (s : StreamGo.Stream HpackContext) :
  StreamGo.Method request <> "GET"%string ->
  StreamGo.Method request <> "POST"%string ->
  StreamGo.SendRequest EncodeHeader request s =
  StreamGo.mkStream (StreamGo.Id s) (StreamGo.stream_Conn s) (Some request).
Proof.
  intros Hg Hp. unfold StreamGo.SendRequest.
  destruct (String.eqb_spec (StreamGo.Method request) "GET"); [contradiction|].
  destruct (String.eqb_spec (StreamGo.Method request) "POST"); [contradiction|].
  reflexivity.
Qed.

(** ** [stream.go]: [RecvResponse] *)

Lemma last_headers_app init l1 l2 :
  last_headers init (l1 ++ l2) = last_headers (last_headers init l1) l2.
Proof. unfold last_headers. apply foldl_app. Qed.

Lemma data_payloads_app l1 l2 :
  data_payloads (l1 ++ l2) = data_payloads l1 ++ data_payloads l2.
Proof. unfold data_payloads. by rewrite omap_app, concat_app. Qed.

(** One turn of the loop on a well-typed frame. *)
Lemma RecvResponse_loop_cons (HpackContext : Type) (f : Frame) (rest : list Frame)
    (c : Z) (header : HttpHeader) (resBody : list byte)
    (s : StreamGo.Stream HpackContext) :
  well_typed f ->
  StreamGo.RecvResponse_loop (f :: rest) c header resBody s =
  let header' := last_headers header [f] in
  let resBody' := resBody ++ data_payloads [f] in
  if decide (Flags (Header f) = 1) then
    StreamGo.Returned (StreamGo.make_response header' resBody' s)
                      (StreamGo.set_incoming rest s)
  else if decide (c > 50) then
    StreamGo.Returned (StreamGo.make_response header' resBody' s)
                      (StreamGo.set_incoming rest s)
  else StreamGo.RecvResponse_loop rest (c + 1) header' resBody' s.
Proof.
  unfold well_typed, last_headers, data_payloads. simpl.
  destruct (FType (Header f)) eqn:Ht; destruct f; simpl; try contradiction;
    intros _;
    repeat match goal with
    | |- context [decide (?a = ?b :> FrameType)] =>
        destruct (decide (a = b :> FrameType)) as [E|E];
          [try discriminate E|try by destruct E]
    end; simpl; rewrite ?app_nil_r; reflexivity.
Qed.

(** The loop on a list of frames of which the last one ends it: by the
    flags byte [0x1], or by being the frame that the counter, at 51 by
    then, lets through no more. *)
Lemma RecvResponse_loop_returns (HpackContext : Type) (pre : list Frame)
    (last : Frame) (rest : list Frame) (s : StreamGo.Stream HpackContext) :
  forall (c : Z) (header : HttpHeader) (resBody : list byte),
  Forall well_typed (pre ++ [last]) ->
  Forall (fun f => Flags (Header f) <> 1) pre ->
  (Flags (Header last) = 1 /\ c + Z.of_nat (length pre) <= 51) \/
  (Flags (Header last) <> 1 /\ c + Z.of_nat (length pre) = 51) ->
  StreamGo.RecvResponse_loop (pre ++ last :: rest) c header resBody s =
  StreamGo.Returned
    (StreamGo.make_response (last_headers header (pre ++ [last]))
                            (resBody ++ data_payloads (pre ++ [last])) s)
    (StreamGo.set_incoming rest s).
Proof.
  induction pre as [|f pre IH]; intros c header resBody Hwt Hpre Hend.
  - simpl app in *. apply (proj1 (Forall_singleton _ _)) in Hwt.
    rewrite RecvResponse_loop_cons by exact Hwt. cbv zeta.
    destruct Hend as [[Hl _]|[Hl Hc]].
    + by destruct (decide (Flags (Header last) = 1)).
    + destruct (decide (Flags (Header last) = 1)); [contradiction|].
      simpl in Hc. destruct (decide (c > 50)); [reflexivity|lia].
  - change ((f :: pre) ++ [last]) with ([f] ++ (pre ++ [last])) in *.
    apply Forall_app in Hwt as [Hf Hwt].
    apply (proj1 (Forall_singleton _ _)) in Hf.
    apply Forall_cons in Hpre as [Hnf Hpre].
    change ((f :: pre) ++ last :: rest) with (f :: (pre ++ last :: rest)).
    rewrite RecvResponse_loop_cons by exact Hf. cbv zeta.
    destruct (decide (Flags (Header f) = 1)); [contradiction|].
    assert (Hlen : Z.of_nat (length (f :: pre)) = 1 + Z.of_nat (length pre))
      by (simpl length; lia).
    destruct (decide (c > 50)); [lia|].
    rewrite IH; [|exact Hwt|exact Hpre|lia].
    by rewrite (last_headers_app header [f]), (data_payloads_app [f]),
      (app_assoc resBody).
Qed.

(** The loop waits when the frames run out before one of them ends it. *)
Lemma RecvResponse_loop_waits (HpackContext : Type) (frames : list Frame)
    (s : StreamGo.Stream HpackContext) :
  forall (c : Z) (header : HttpHeader) (resBody : list byte),
  Forall well_typed frames ->
  Forall (fun f => Flags (Header f) <> 1) frames ->
  c + Z.of_nat (length frames) <= 51 ->
  StreamGo.RecvResponse_loop frames c header resBody s = StreamGo.Waiting.
Proof.
  induction frames as [|f frames IH]; intros c header resBody Hwt Hfl Hc.
  - reflexivity.
  - apply Forall_cons in Hwt as [Hf Hwt]. apply Forall_cons in Hfl as [Hnf Hfl].
    rewrite RecvResponse_loop_cons by exact Hf. cbv zeta.
    destruct (decide (Flags (Header f) = 1)); [contradiction|].
    simpl length in Hc.
    destruct (decide (c > 50)); [lia|].
    apply IH; [exact Hwt|exact Hfl|lia].
Qed.

Lemma carries_END_STREAM_alone (f : Frame) :
  (carries_END_STREAM f -> Flags (Header f) = END_STREAM) ->
  carries_END_STREAM f <-> Flags (Header f) = 1.
Proof.
  intros H. split; [exact H|]. unfold carries_END_STREAM. by intros ->.
Qed.

(** C6, as the code has it.  Take any sequence of incoming frames, each of
    the concrete type that its header announces, in which the end-of-stream
    flag, where it is set, is the only flag of its frame.
    [RecvResponse] reads the frames in arrival order and returns after the
    first frame that carries the end-of-stream flag, when that is among
    the first 52, and after the 52nd frame otherwise; the bound is the
    constant of the code.  The response has the header fields of the last
    HEADERS frame read (none if there was no such frame) and, as its body,
    the payloads of the DATA frames read, in arrival order; the frames
    after the last one read stay on the connection.  When the frames run
    out before that, [RecvResponse] waits. *)
Theorem C6_RecvResponse_drains_until_END_STREAM_or_52 (HpackContext : Type)
    (s : StreamGo.Stream HpackContext) (pre : list Frame) (last : Frame)
    (rest : list Frame) :
  StreamGo.incoming (StreamGo.stream_Conn s) = pre ++ last :: rest ->
  Forall well_typed (pre ++ [last]) ->
  Forall (fun f => carries_END_STREAM f -> Flags (Header f) = END_STREAM)
         (pre ++ [last]) ->
  Forall (fun f => ~ carries_END_STREAM f) pre ->
  (carries_END_STREAM last /\ (length pre <= 51)%nat) \/
  (~ carries_END_STREAM last /\ length pre = 51%nat) ->
  StreamGo.RecvResponse s =
    StreamGo.Returned
      (StreamGo.make_response (last_headers [] (pre ++ [last]))
                              (data_payloads (pre ++ [last])) s)
      (StreamGo.set_incoming rest s) /\
  StreamGo.RecvResponse (StreamGo.set_incoming pre s) = StreamGo.Waiting.
Proof.
  intros Hin Hwt Halone Hpre Hend.
  apply Forall_app in Halone as [Ha1 Ha2].
  apply (proj1 (Forall_singleton _ _)) in Ha2.
  assert (Hpre' : Forall (fun f => Flags (Header f) <> 1) pre).
  { rewrite Forall_forall in *. intros f Hf E.
    apply (Hpre f Hf). apply carries_END_STREAM_alone; [by apply Ha1|exact E]. }
  split.
  - unfold StreamGo.RecvResponse. rewrite Hin.
    rewrite (RecvResponse_loop_returns HpackContext pre last rest s 0 [] []);
      [reflexivity|exact Hwt|exact Hpre'|].
    destruct Hend as [[Hl Hn]|[Hl Hn]]; [left|right]; split; try lia.
    + by apply carries_END_STREAM_alone.
    + intros E. apply Hl. by apply carries_END_STREAM_alone.
  - unfold StreamGo.RecvResponse. simpl.
    apply RecvResponse_loop_waits; [|exact Hpre'|].
    + by apply Forall_app in Hwt as [? _].
    + destruct Hend as [[_ Hn]|[_ Hn]]; lia.
Qed.

(** A HEADERS frame, then two DATA frames of which the second has the
    end-of-stream flag, then a frame that is not read. *)
Lemma C6_RecvResponse_witness :
  let h := [("status"%string, ["200"%string])] in
  let frames := [headers_frame 1 END_HEADERS h;
                 data_frame 1 0 [Byte.x68];
                 data_frame 1 END_STREAM [Byte.x69];
                 data_frame 1 0 [Byte.x21]] in
  StreamGo.RecvResponse (sample_go_stream frames) =
  StreamGo.Returned
    (StreamGo.mkResponse 2 0 h [Byte.x68; Byte.x69] 2 None)
    (sample_go_stream [data_frame 1 0 [Byte.x21]]).
Proof.
  intros h frames.
  refine (proj1 (C6_RecvResponse_drains_until_END_STREAM_or_52 nat
                   (sample_go_stream frames)
                   [headers_frame 1 END_HEADERS h; data_frame 1 0 [Byte.x68]]
                   (data_frame 1 END_STREAM [Byte.x69])
                   [data_frame 1 0 [Byte.x21]] eq_refl _ _ _ _)).
  - repeat constructor.
  - repeat constructor; intros H; vm_compute in H; try discriminate H; reflexivity.
  - repeat constructor; intros H; vm_compute in H; discriminate H.
  - left. split; [reflexivity|simpl; lia].
Defined.

(** C6 as it is stated fails in three ways.  A HEADERS frame that carries
    the end-of-stream flag together with the end-of-headers flag does not
    end the loop: [RecvResponse] goes on to wait for another frame.  The
    header fields of an earlier HEADERS frame are dropped when a later one
    arrives.  And the bound is fixed: of 60 frames without the flag, 52 are
    read. *)
Lemma C6_counterexample :
  carries_END_STREAM (headers_frame 1 (END_STREAM + END_HEADERS) []) /\
  StreamGo.RecvResponse
    (sample_go_stream [headers_frame 1 (END_STREAM + END_HEADERS) []])
    = StreamGo.Waiting /\
  (exists res s',
     StreamGo.RecvResponse
       (sample_go_stream
          [headers_frame 1 0 [("status"%string, ["200"%string])];
           headers_frame 1 END_STREAM [("trailer"%string, ["x"%string])]])
       = StreamGo.Returned res s' /\
     StreamGo.res_Header res = [("trailer"%string, ["x"%string])]) /\
  (exists res s',
     StreamGo.RecvResponse (sample_go_stream (repeat (data_frame 1 0 [Byte.x61]) 60))
       = StreamGo.Returned res s' /\
     StreamGo.ContentLength res = 52 /\
     length (StreamGo.incoming (StreamGo.stream_Conn s')) = 8%nat).
Proof.
  split; [reflexivity|]. split; [reflexivity|]. split.
  - eexists _, _. split; vm_compute; reflexivity.
  - eexists _, _. split; [vm_compute; reflexivity|]. split; reflexivity.
Qed.

(** ** Rebasing through [HandleSettings], there and back

    The peer sets the initial window size to [new] and then back to [old],
    the initial size that the window of the connection and the windows of
    the streams had.  After the two frames the window of the connection and
    the whole stream table are as they were. *)
Lemma HandleSettings_there_and_back (sf1 sf2 : SettingsFrame) (σ : St) (new old : Z) :
  Flags (sf_Header sf1) = UNSET ->
  Flags (sf_Header sf2) = UNSET ->
  heap σ (Settings sf1) !! SETTINGS_INITIAL_WINDOW_SIZE = Some new ->
  new <= 65535 ->
  old <= 65535 ->
  (forall id, Streams (conn σ) !! id <> Some None) ->
  closed (WriteChan (conn σ)) = false ->
  InitialSize (conn_Window (conn σ)) = old ->
  Int32.is_int32 (PeerCurrentSize (conn_Window (conn σ))) ->
  (forall id s, Streams (conn σ) !! id = Some (Some s) ->
     InitialSize (stream_Window s) = old /\
     Int32.is_int32 (PeerCurrentSize (stream_Window s))) ->
  exists σ1,
    HandleSettings sf1 σ = Ok tt σ1 /\
    (heap σ1 (Settings sf2) !! SETTINGS_INITIAL_WINDOW_SIZE = Some old ->
     exists σ2,
       HandleSettings sf2 σ1 = Ok tt σ2 /\
       conn_Window (conn σ2) = conn_Window (conn σ) /\
       Streams (conn σ2) = Streams (conn σ)).
Proof.
  intros Hf1 Hf2 Hw1 Hnew Hold Hnil Hopen Hinit Hp Hstreams.
  destruct (HandleSettings_rebases_every_window sf1 σ new Hf1 Hw1 Hnew Hnil Hopen)
    as (σ1 & Hrun1 & Hwin1 & Hs1 & Hch1 & _).
  exists σ1. split; [exact Hrun1|]. intros Hw2.
  destruct (HandleSettings_rebases_every_window sf2 σ1 old Hf2 Hw2 Hold)
    as (σ2 & Hrun2 & Hwin2 & Hs2 & _).
  - intros id. rewrite Hs1, lookup_fmap.
    specialize (Hnil id). by destruct (Streams (conn σ) !! id) as [[?|]|].
  - by rewrite Hch1.
  - exists σ2. split; [exact Hrun2|]. split.
    + rewrite Hwin2, Hwin1, <- Hinit. by apply Rebase_there_and_back.
    + rewrite Hs2, Hs1. apply map_eq. intros id. rewrite !lookup_fmap.
      destruct (Streams (conn σ) !! id) as [[s|]|] eqn:Hid; try reflexivity.
      simpl. do 2 f_equal.
      destruct (Hstreams id s Hid) as [Hi Hps].
      unfold rebase_stream. simpl. rewrite <- Hi, Rebase_there_and_back by exact Hps.
      by destruct s.
Qed.

(** * Further properties of [conn.go] and [stream.go] *)

(** ** What [HandleSettings] leaves alone *)

(** A loop whose every turn keeps a reflexive and transitive relation
    between the state before and the state after keeps it as a whole,
    however it ends. *)
Lemma forM_rel {A : Type} (R : St -> St -> Prop) (f : A -> M unit) (l : list A) :
  (forall σ, R σ σ) ->
  (forall σ1 σ2 σ3, R σ1 σ2 -> R σ2 σ3 -> R σ1 σ3) ->
  (forall x σ, R σ (state_of (f x σ))) ->
  forall σ, R σ (state_of (forM_ l f σ)).
Proof.
  intros Hrefl Htrans Hf. induction l as [|x l IH]; intros σ; simpl.
  - apply Hrefl.
  - unfold mbind, M_bind. specialize (Hf x σ).
    destruct (f x σ) as [[] σ1|p σ1]; simpl in *; [|exact Hf].
    eapply Htrans; [exact Hf|apply IH].
Qed.

Lemma heap_write_other (h : Heap) (r r' : MapRef) (k k' : SettingsID) (v : Z) :
  k' <> k -> heap_write h r k v r' !! k' = h r' !! k'.
Proof.
  intros Hk. unfold heap_write. destruct (Nat.eqb r' r) eqn:E; [|reflexivity].
  apply Nat.eqb_eq in E as ->. by rewrite lookup_insert_ne.
Qed.

Lemma apply_settings_to_stream_heap w e σ :
  same_but_initial_window σ (state_of (apply_settings_to_stream w e σ)).
Proof.
  unfold apply_settings_to_stream, same_but_initial_window.
  destruct (e.2); run_monad; intros r k Hk; [|reflexivity].
  by apply heap_write_other.
Qed.

(** X1.  However [HandleSettings] ends, and whatever the frame: no entry of a
    settings table other than the initial window size is written, in any
    table of the store. *)
Theorem HandleSettings_writes_initial_window_only (sf : SettingsFrame) (σ : St)
    (r : MapRef) (k : SettingsID) :
  k <> SETTINGS_INITIAL_WINDOW_SIZE ->
  heap (state_of (HandleSettings sf σ)) r !! k = heap σ r !! k.
Proof.
  intros Hk. unfold HandleSettings.
  destruct (decide (Flags (sf_Header sf) = ACK)); [reflexivity|].
  destruct (decide (Flags (sf_Header sf) <> UNSET)); [reflexivity|].
  run_monad.
  destruct (heap σ (Settings sf) !! SETTINGS_INITIAL_WINDOW_SIZE) as [w|].
  - destruct (decide (w > 65535)); [reflexivity|]. run_monad.
    match goal with |- context [forM_ ?l ?f ?σ1] =>
      pose proof (forM_rel same_but_initial_window f l
                    (fun _ _ _ _ => eq_refl)
                    (fun _ _ _ H1 H2 r0 k0 Hk0 =>
                       eq_trans (H2 r0 k0 Hk0) (H1 r0 k0 Hk0))
                    (apply_settings_to_stream_heap w) σ1 r k Hk) as Hl;
      destruct (forM_ l f σ1) as [[] σ2|p σ2] end; simpl in Hl.
    + unfold chan_send. destruct (closed (WriteChan (conn σ2))); simpl;
        rewrite Hl; by apply heap_write_other.
    + simpl. rewrite Hl. by apply heap_write_other.
  - run_monad. unfold chan_send. by destruct (closed (WriteChan (conn σ))).
Qed.

Lemma HandleSettings_writes_initial_window_only_witness :
  heap (state_of (HandleSettings (settings_frame UNSET)
          (state_of_conn conn_three_streams
             (heap_with SETTINGS_INITIAL_WINDOW_SIZE 20000))))
       DefaultSettings !! SETTINGS_MAX_CONCURRENT_STREAMS = Some 100.
Proof.
  rewrite (HandleSettings_writes_initial_window_only (settings_frame UNSET) _
             DefaultSettings SETTINGS_MAX_CONCURRENT_STREAMS); [reflexivity|].
  discriminate.
Defined.

(** An entry of the stream table after the loop over the streams: as it
    was, or the stream of an entry of the list with its window rebased. *)
Lemma forM_apply_settings_entries w (l : list (N * option Stream)) :
  forall σ (id : N),
    Streams (conn (state_of (forM_ l (apply_settings_to_stream w) σ))) !! id =
      Streams (conn σ) !! id \/
    exists s, (id, Some s) ∈ l /\
      Streams (conn (state_of (forM_ l (apply_settings_to_stream w) σ))) !! id =
        Some (Some (rebase_stream w s)).
Proof.
  induction l as [|[k0 v0] l IH]; intros σ id; simpl.
  - by left.
  - unfold mbind, M_bind.
    destruct v0 as [s0|]; unfold apply_settings_to_stream at 1; run_monad;
      [|by left].
    match goal with |- context [forM_ l _ ?σ1] =>
      destruct (IH σ1 id) as [H|(s & Hin & H)] end.
    + rewrite H. simpl. destruct (decide (id = k0)) as [->|Hne].
      * right. exists s0. split; [left|]. by rewrite lookup_insert_eq.
      * left. by rewrite lookup_insert_ne.
    + right. exists s. split; [by right|exact H].
Qed.

(** X2.  However [HandleSettings] ends, and whatever the frame: every entry of
    the stream table is as it was, or it is the same stream with its window
    rebased.  So no entry is added or removed, a nil entry stays nil, and
    of a stream nothing changes but [InitialSize] and [PeerCurrentSize] of
    its window. *)
Theorem HandleSettings_keeps_stream_table (sf : SettingsFrame) (σ : St) (id : N) :
  let σ' := state_of (HandleSettings sf σ) in
  Streams (conn σ') !! id = Streams (conn σ) !! id \/
  exists (s : Stream) (w : Z),
    Streams (conn σ) !! id = Some (Some s) /\
    Streams (conn σ') !! id =
      Some (Some {| stream_ID := stream_ID s;
                    stream_State := stream_State s;
                    stream_Window :=
                      {| InitialSize := w;
                         CurrentSize := CurrentSize (stream_Window s);
                         PeerCurrentSize :=
                           Int32.to_int32 (PeerCurrentSize (stream_Window s)
                                           + (w - InitialSize (stream_Window s)));
                         Threshold := Threshold (stream_Window s) |};
                    stream_Settings := stream_Settings s;
                    stream_PeerSettings := stream_PeerSettings s;
                    stream_ReadChan := stream_ReadChan s |}).
Proof.
  intros σ'. unfold σ', HandleSettings.
  destruct (decide (Flags (sf_Header sf) = ACK)); [by left|].
  destruct (decide (Flags (sf_Header sf) <> UNSET)); [by left|].
  run_monad.
  destruct (heap σ (Settings sf) !! SETTINGS_INITIAL_WINDOW_SIZE) as [w|].
  - destruct (decide (w > 65535)); [by left|]. run_monad.
    match goal with |- context [forM_ ?l ?f ?σ1] =>
      pose proof (forM_apply_settings_entries w l σ1 id) as Hl;
      destruct (forM_ l f σ1) as [[] σ2|p σ2] end; simpl in Hl.
    + unfold chan_send. destruct (closed (WriteChan (conn σ2))); simpl;
        (destruct Hl as [Hl|(s & Hin & Hl)]; [by left|];
         right; exists s, w; apply elem_of_map_to_list in Hin;
         split; [exact Hin|]; rewrite Hl; unfold rebase_stream, set_stream_Window;
         by rewrite <- Rebase_PeerCurrentSize).
    + simpl. destruct Hl as [Hl|(s & Hin & Hl)]; [by left|].
      right. exists s, w. apply elem_of_map_to_list in Hin.
      split; [exact Hin|]. rewrite Hl. unfold rebase_stream, set_stream_Window.
      by rewrite <- Rebase_PeerCurrentSize.
  - run_monad. unfold chan_send. left. by destruct (closed (WriteChan (conn σ))).
Qed.

(** ** Settings frames, one after the other *)

Lemma Rebase_compose (a b : Z) (w : Window) :
  Rebase b (Rebase a w) = Rebase b w.
Proof.
  assert (E : PeerCurrentSize (Rebase b (Rebase a w)) = PeerCurrentSize (Rebase b w)).
  { rewrite !Rebase_PeerCurrentSize. simpl. rewrite to_int32_add_l. f_equal. lia. }
  destruct w as [i c p t]. unfold Rebase in *. simpl in *. by rewrite E.
Qed.

(** X3.  Of two settings frames handled one after the other, the second
    decides: the windows of the connection and of all streams are what the
    second frame alone would have made them.  The connection is one whose
    table has no nil entry and whose outbound channel is open, and the
    parameter set of the second frame is not a table that the first frame
    is applied to. *)
Theorem HandleSettings_last_frame_wins (sf1 sf2 : SettingsFrame) (σ : St) (a b : Z) :
  Flags (sf_Header sf1) = UNSET ->
  Flags (sf_Header sf2) = UNSET ->
  heap σ (Settings sf1) !! SETTINGS_INITIAL_WINDOW_SIZE = Some a ->
  heap σ (Settings sf2) !! SETTINGS_INITIAL_WINDOW_SIZE = Some b ->
  a <= 65535 ->
  b <= 65535 ->
  (forall id, Streams (conn σ) !! id <> Some None) ->
  closed (WriteChan (conn σ)) = false ->
  Settings sf2 ∉ conn_PeerSettings (conn σ)
                  :: stream_refs (map_to_list (Streams (conn σ))) ->
  exists σ1 σ12 σ2,
    HandleSettings sf1 σ = Ok tt σ1 /\
    HandleSettings sf2 σ1 = Ok tt σ12 /\
    HandleSettings sf2 σ = Ok tt σ2 /\
    conn_Window (conn σ12) = conn_Window (conn σ2) /\
    Streams (conn σ12) = Streams (conn σ2).
Proof.
  intros Hf1 Hf2 Ha Hb Hale Hble Hnil Hopen Hfresh.
  destruct (HandleSettings_rebases_every_window sf1 σ a Hf1 Ha Hale Hnil Hopen)
    as (σ1 & Hrun1 & Hwin1 & Hs1 & Hch1 & Hh1 & _).
  destruct (HandleSettings_rebases_every_window sf2 σ b Hf2 Hb Hble Hnil Hopen)
    as (σ2 & Hrun2 & Hwin2 & Hs2 & _).
  assert (Hb1 : heap σ1 (Settings sf2) !! SETTINGS_INITIAL_WINDOW_SIZE = Some b).
  { rewrite Hh1. by rewrite bool_decide_eq_false_2. }
  destruct (HandleSettings_rebases_every_window sf2 σ1 b Hf2 Hb1 Hble)
    as (σ12 & Hrun12 & Hwin12 & Hs12 & _).
  { intros id. rewrite Hs1, lookup_fmap.
    specialize (Hnil id). by destruct (Streams (conn σ) !! id) as [[?|]|]. }
  { by rewrite Hch1. }
  exists σ1, σ12, σ2. repeat split; try assumption.
  - by rewrite Hwin12, Hwin1, Hwin2, Rebase_compose.
  - rewrite Hs12, Hs1, Hs2. apply map_eq. intros id. rewrite !lookup_fmap.
    destruct (Streams (conn σ) !! id) as [[s|]|]; try reflexivity.
    simpl. do 2 f_equal. unfold rebase_stream. simpl.
    by rewrite Rebase_compose.
Qed.

(** The peer sets the initial window size to 20000 and then to 30000. *)
Lemma HandleSettings_last_frame_wins_witness :
  let h : Heap := fun r =>
    if Nat.eqb r 3 then <[SETTINGS_INITIAL_WINDOW_SIZE := 30000]> ∅
    else heap_with SETTINGS_INITIAL_WINDOW_SIZE 20000 r in
  let sf2 := {| sf_Header := mkFrameHeader 6 SettingsFrameType UNSET 0;
                Settings := 3%nat |} in
  exists σ1 σ12 σ2,
    HandleSettings (settings_frame UNSET) (state_of_conn conn_three_streams h)
      = Ok tt σ1 /\
    HandleSettings sf2 σ1 = Ok tt σ12 /\
    HandleSettings sf2 (state_of_conn conn_three_streams h) = Ok tt σ2 /\
    conn_Window (conn σ12) = conn_Window (conn σ2) /\
    Streams (conn σ12) = Streams (conn σ2).
Proof.
  intros h sf2.
  apply (HandleSettings_last_frame_wins (settings_frame UNSET) sf2
           (state_of_conn conn_three_streams h) 20000 30000);
    try reflexivity; try lia.
  - intros id Hid. apply conn_three_streams_lookup in Hid as (s & Hs & _).
    discriminate Hs.
  - vm_compute. intros H. repeat (apply elem_of_cons in H as [H|H]; [discriminate H|]).
    by apply elem_of_nil in H.
Defined.

(** X4.  A settings frame with no flag set and without an initial window size:
    its parameter set becomes the [Settings] of the connection and the
    acknowledgment is sent; no window, no entry of the stream table and no
    settings table is touched, so that a nil entry in the table does no
    harm here.  On a closed outbound channel the send panics. *)
Theorem HandleSettings_without_initial_window (sf : SettingsFrame) (σ : St) :
  Flags (sf_Header sf) = UNSET ->
  heap σ (Settings sf) !! SETTINGS_INITIAL_WINDOW_SIZE = None ->
  HandleSettings sf σ =
  if closed (WriteChan (conn σ)) then
    Panic SendOnClosedChannel
      {| conn := set_conn_Settings (Settings sf) (conn σ);
         heap := heap σ; errors := errors σ; detached := detached σ |}
  else
    Ok tt
      {| conn :=
           {| LastStreamID := LastStreamID (conn σ);
              conn_Window := conn_Window (conn σ);
              conn_Settings := Settings sf;
              conn_PeerSettings := conn_PeerSettings (conn σ);
              Streams := Streams (conn σ);
              WriteChan :=
                {| queue := queue (WriteChan (conn σ))
                              ++ [NewSettingsFrame ACK 0 NilSettings];
                   closed := false |} |};
         heap := heap σ; errors := errors σ; detached := detached σ |}.
Proof.
  intros Hf Hw. rewrite HandleSettings_unset by exact Hf.
  run_monad. rewrite Hw. run_monad. unfold chan_send.
  by destruct (closed (WriteChan (conn σ))).
Qed.

Lemma HandleSettings_without_initial_window_witness :
  exists σ',
    HandleSettings (settings_frame UNSET)
      (state_of_conn conn_closed_stream (heap_with SETTINGS_MAX_CONCURRENT_STREAMS 50))
      = Ok tt σ' /\
    Streams (conn σ') = Streams conn_closed_stream /\
    queue (WriteChan (conn σ')) = [NewSettingsFrame ACK 0 NilSettings].
Proof.
  rewrite (HandleSettings_without_initial_window (settings_frame UNSET)
             (state_of_conn conn_closed_stream
                (heap_with SETTINGS_MAX_CONCURRENT_STREAMS 50)) eq_refl eq_refl).
  eexists. split; [reflexivity|]. split; reflexivity.
Defined.

(** ** Frames that [ReadLoop] handles at the level of the connection *)

(** X5.  A settings frame for stream 0 that carries a flag, of the concrete
    type that its header announces: the turn changes nothing of the
    connection and of the store, reports the flag unless it is the
    acknowledgment, and the loop goes on. *)
Theorem ReadLoop_turn_flagged_settings NewStream ChangeState
    (sf : SettingsFrame) (σ : St) :
  FType (sf_Header sf) = SettingsFrameType ->
  StreamID (sf_Header sf) = 0%N ->
  Flags (sf_Header sf) <> UNSET ->
  ReadLoop_turn NewStream ChangeState (ReadOk (FSettings sf)) σ =
  Ok LoopContinue
    {| conn := conn σ; heap := heap σ;
       errors := if decide (Flags (sf_Header sf) = ACK) then errors σ
                 else errors σ ++ [UnknownSettingsFlag (Flags (sf_Header sf))];
       detached := detached σ |}.
Proof.
  intros Ht Hid Hfl.
  unfold ReadLoop_turn, and_then, step_settings, step_window_update,
    step_goaway, step_data, step_stream, HandleSettings.
  simpl. rewrite Ht, Hid.
  destruct (decide (SettingsFrameType = SettingsFrameType)) as [_|E]; [|by destruct E].
  destruct (decide (_ /\ SettingsFrameType = WindowUpdateFrameType)) as [[_ E]|_];
    [discriminate E|].
  destruct (decide (SettingsFrameType = GoAwayFrameType)) as [E|_]; [discriminate E|].
  destruct (decide (SettingsFrameType = DataFrameType)) as [E|_]; [discriminate E|].
  destruct (decide (0%N = 0%N)) as [_|E]; [|by destruct E].
  destruct (decide (Flags (sf_Header sf) = ACK)).
  - run_monad. by destruct σ.
  - destruct (decide (Flags (sf_Header sf) <> UNSET)); [|contradiction].
    by run_monad.
Qed.

Lemma ReadLoop_turn_flagged_settings_witness :
  ReadLoop_turn (NewStream_spec sample_window) ChangeState_spec
    (ReadOk (FSettings (settings_frame ACK)))
    (state_of_conn conn_three_streams (heap_with SETTINGS_INITIAL_WINDOW_SIZE 70000))
  = Ok LoopContinue
      (state_of_conn conn_three_streams (heap_with SETTINGS_INITIAL_WINDOW_SIZE 70000)).
Proof.
  apply (ReadLoop_turn_flagged_settings (NewStream_spec sample_window)
           ChangeState_spec (settings_frame ACK)
           (state_of_conn conn_three_streams
              (heap_with SETTINGS_INITIAL_WINDOW_SIZE 70000))).
  - reflexivity.
  - reflexivity.
  - discriminate.
Defined.

(** X6.  A credit update for the connection, of the concrete type that its
    header announces: the turn adds the increment, converted to [int32], to
    the credit towards the peer in [int32] arithmetic, changes nothing
    else, and the loop goes on. *)
Theorem ReadLoop_turn_connection_window_update NewStream ChangeState
    (wf : WindowUpdateFrame) (σ : St) :
  FType (wf_Header wf) = WindowUpdateFrameType ->
  StreamID (wf_Header wf) = 0%N ->
  ReadLoop_turn NewStream ChangeState (ReadOk (FWindowUpdate wf)) σ =
  Ok LoopContinue
    {| conn :=
         {| LastStreamID := LastStreamID (conn σ);
            conn_Window :=
              {| InitialSize := InitialSize (conn_Window (conn σ));
                 CurrentSize := CurrentSize (conn_Window (conn σ));
                 PeerCurrentSize :=
                   Int32.to_int32 (PeerCurrentSize (conn_Window (conn σ))
                                   + WindowSizeIncrement wf);
                 Threshold := Threshold (conn_Window (conn σ)) |};
            conn_Settings := conn_Settings (conn σ);
            conn_PeerSettings := conn_PeerSettings (conn σ);
            Streams := Streams (conn σ);
            WriteChan := WriteChan (conn σ) |};
       heap := heap σ; errors := errors σ; detached := detached σ |}.
Proof.
  intros Ht Hid.
  unfold ReadLoop_turn, and_then, step_settings, step_window_update,
    step_goaway, step_data, step_stream.
  simpl. rewrite Ht, Hid.
  destruct (decide (WindowUpdateFrameType = SettingsFrameType)) as [E|_];
    [discriminate E|].
  destruct (decide (0%N = 0%N /\ WindowUpdateFrameType = WindowUpdateFrameType))
    as [_|E]; [|by destruct E].
  destruct (decide (WindowUpdateFrameType = GoAwayFrameType)) as [E|_];
    [discriminate E|].
  destruct (decide (WindowUpdateFrameType = DataFrameType)) as [E|_];
    [discriminate E|].
  destruct (decide (0%N = 0%N)) as [_|E]; [|by destruct E].
  run_monad. unfold Int32.add. by rewrite to_int32_add_r.
Qed.

(** The peer grants 1000 to a connection that has 65535. *)
Lemma ReadLoop_turn_connection_window_update_witness :
  exists σ',
    ReadLoop_turn (NewStream_spec sample_window) ChangeState_spec
      (ReadOk (NewWindowUpdateFrame 0 1000))
      (state_of_conn fresh_conn initial_heap) = Ok LoopContinue σ' /\
    PeerCurrentSize (conn_Window (conn σ')) = 66535.
Proof.
  unfold NewWindowUpdateFrame.
  rewrite (ReadLoop_turn_connection_window_update (NewStream_spec sample_window)
             ChangeState_spec
             {| wf_Header := mkFrameHeader 4 WindowUpdateFrameType 0 0;
                WindowSizeIncrement := 1000 |}
             (state_of_conn fresh_conn initial_heap) eq_refl eq_refl).
  eexists. split; reflexivity.
Defined.

(** X7.  A frame whose header announces a settings frame, or a credit update
    for the connection, and whose concrete type is another one: the type
    assertion fails, the error is reported, and [ReadLoop] returns without
    reading on; nothing else has changed. *)
Theorem ReadLoop_failed_type_assertion NewStream ChangeState
    (frame : Frame) (input : list ReadResult) (σ : St) :
  assertion_fails SettingsFrameType frame \/
  (assertion_fails WindowUpdateFrameType frame /\ StreamID (Header frame) = 0%N) ->
  ReadLoop NewStream ChangeState (ReadOk frame :: input) σ =
  Ok true
    {| conn := conn σ; heap := heap σ;
       errors := errors σ ++
                 [if decide (FType (Header frame) = SettingsFrameType)
                  then InvalidSettingsFrame else InvalidWindowUpdateFrame];
       detached := detached σ |}.
Proof.
  intros H. rewrite ReadLoop_cons.
  unfold ReadLoop_turn, and_then, step_settings, step_window_update.
  destruct H as [[Ht Hf]|[[Ht Hf] Hid]]; rewrite Ht.
  - destruct (decide (SettingsFrameType = SettingsFrameType)) as [_|E];
      [|by destruct E].
    destruct frame; try contradiction; by run_monad.
  - destruct (decide (WindowUpdateFrameType = SettingsFrameType)) as [E|_];
      [discriminate E|].
    rewrite Hid.
    destruct (decide (0%N = 0%N /\ WindowUpdateFrameType = WindowUpdateFrameType))
      as [_|E]; [|by destruct E].
    destruct frame; try contradiction; by run_monad.
Qed.

Lemma ReadLoop_failed_type_assertion_witness :
  ReadLoop (NewStream_spec sample_window) ChangeState_spec
    [ReadOk (FOther (mkFrameHeader 0 SettingsFrameType 0 0)); ReadOk goaway_frame]
    (state_of_conn conn_three_streams initial_heap)
  = Ok true
      {| conn := conn_three_streams; heap := initial_heap;
         errors := [InvalidSettingsFrame]; detached := [] |}.
Proof.
  apply (ReadLoop_failed_type_assertion (NewStream_spec sample_window)
           ChangeState_spec (FOther (mkFrameHeader 0 SettingsFrameType 0 0))
           [ReadOk goaway_frame] (state_of_conn conn_three_streams initial_heap)).
  left. split; [reflexivity|exact I].
Defined.

(** [ReadLoop] over an input in two parts: the second part is read in the
    state that the first has left, when the loop still runs then; when it
    has ended, or died, in the first part, the second is never read. *)
Lemma ReadLoop_app NewStream ChangeState (l1 l2 : list ReadResult) (σ : St) :
  ReadLoop NewStream ChangeState (l1 ++ l2) σ =
  match ReadLoop NewStream ChangeState l1 σ with
  | Ok false σ' => ReadLoop NewStream ChangeState l2 σ'
  | r => r
  end.
Proof.
  revert σ. induction l1 as [|r l1 IH]; intros σ.
  - reflexivity.
  - change ((r :: l1) ++ l2) with (r :: (l1 ++ l2)).
    rewrite !ReadLoop_cons.
    destruct (ReadLoop_turn NewStream ChangeState r σ) as [[] σ1|p σ1];
      try reflexivity; apply IH.
Qed.

(** X8.  [ReadLoop] ends at the end of the transport: what would come after it
    is not read, and the end is reported. *)
Theorem ReadLoop_stops_at_EOF NewStream ChangeState
    (l1 l2 : list ReadResult) (σ σ1 : St) :
  ReadLoop NewStream ChangeState l1 σ = Ok false σ1 ->
  ReadLoop NewStream ChangeState (l1 ++ ReadEOF :: l2) σ =
  Ok true {| conn := conn σ1; heap := heap σ1;
             errors := errors σ1 ++ [ReadEOF_logged];
             detached := detached σ1 |}.
Proof.
  intros H. rewrite ReadLoop_app, H, ReadLoop_cons. reflexivity.
Qed.

Lemma ReadLoop_stops_at_EOF_witness :
  exists σ1,
    ReadLoop (NewStream_spec sample_window) ChangeState_spec
      [ReadOk (headers_frame 1 END_HEADERS [])]
      (state_of_conn fresh_conn initial_heap) = Ok false σ1 /\
    ReadLoop (NewStream_spec sample_window) ChangeState_spec
      ([ReadOk (headers_frame 1 END_HEADERS [])] ++ ReadEOF :: [ReadOk goaway_frame])
      (state_of_conn fresh_conn initial_heap)
    = Ok true {| conn := conn σ1; heap := heap σ1;
                 errors := errors σ1 ++ [ReadEOF_logged];
                 detached := detached σ1 |}.
Proof.
  eexists. split.
  - vm_compute. reflexivity.
  - apply (ReadLoop_stops_at_EOF (NewStream_spec sample_window) ChangeState_spec
             [ReadOk (headers_frame 1 END_HEADERS [])] [ReadOk goaway_frame]).
    vm_compute. reflexivity.
Defined.

(** ** More on [WindowUpdate] *)

Lemma to_int32_decomp z : exists k, Int32.to_int32 z = z + 2 ^ 32 * k.
Proof.
  unfold Int32.to_int32, Int32.modulus.
  exists (- ((z + 2 ^ 31) / 2 ^ 32)).
  pose proof (Z.div_mod (z + 2 ^ 31) (2 ^ 32) ltac:(lia)). lia.
Qed.

Lemma to_uint32_decomp z : exists k, Int32.to_uint32 z = z + 2 ^ 32 * k.
Proof.
  unfold Int32.to_uint32, Int32.modulus.
  exists (- (z / 2 ^ 32)).
  pose proof (Z.div_mod z (2 ^ 32) ltac:(lia)). lia.
Qed.

Lemma to_int32_congr x y k : x = y + 2 ^ 32 * k -> Int32.to_int32 x = Int32.to_int32 y.
Proof.
  intros ->. unfold Int32.to_int32, Int32.modulus. f_equal.
  replace (y + 2 ^ 32 * k + 2 ^ 31) with (y + 2 ^ 31 + k * 2 ^ 32) by lia.
  apply Z_mod_plus_full.
Qed.

(** X9.  When the initial size of the receive window is an [int32] at or above
    the threshold, and the outbound channel is open, [WindowUpdate] returns
    with the window at or above its threshold, whatever the length and
    whatever the window held before; initial size and threshold are as they
    were and the channel is still open. *)
Theorem WindowUpdate_keeps_window_above_threshold (length : Z) (σ : St) :
  closed (WriteChan (conn σ)) = false ->
  Int32.is_int32 (InitialSize (conn_Window (conn σ))) ->
  Threshold (conn_Window (conn σ)) <= InitialSize (conn_Window (conn σ)) ->
  exists σ',
    WindowUpdate length σ = Ok tt σ' /\
    Threshold (conn_Window (conn σ')) <= CurrentSize (conn_Window (conn σ')) /\
    InitialSize (conn_Window (conn σ')) = InitialSize (conn_Window (conn σ)) /\
    Threshold (conn_Window (conn σ')) = Threshold (conn_Window (conn σ)) /\
    closed (WriteChan (conn σ')) = false.
Proof.
  intros Hopen Hi Ht. rewrite (WindowUpdate_open length σ Hopen). cbv zeta.
  eexists. split; [reflexivity|].
  destruct (decide (_ < _)) as [Hlt|Hge]; simpl.
  - rewrite replenish_to_initial by exact Hi. repeat split. lia.
  - repeat split; [lia|exact Hopen].
Qed.

(** A window of 65535 with threshold 16384 after 60000 bytes. *)
Lemma WindowUpdate_keeps_window_above_threshold_witness :
  exists σ',
    WindowUpdate 60000 (state_of_conn fresh_conn initial_heap) = Ok tt σ' /\
    Threshold (conn_Window (conn σ')) <= CurrentSize (conn_Window (conn σ')) /\
    InitialSize (conn_Window (conn σ')) = 65535 /\
    Threshold (conn_Window (conn σ')) = 16384 /\
    closed (WriteChan (conn σ')) = false.
Proof.
  apply (WindowUpdate_keeps_window_above_threshold 60000
           (state_of_conn fresh_conn initial_heap)).
  - reflexivity.
  - vm_compute. split; discriminate.
  - vm_compute. discriminate.
Defined.

(** X10.  [WindowUpdate] once the outbound channel is closed: the length is
    taken off the window; when that crosses the threshold the send dies
    with the window left below the threshold, and otherwise the call
    returns. *)
Theorem WindowUpdate_closed_channel (length : Z) (σ : St) :
  closed (WriteChan (conn σ)) = true ->
  let w := conn_Window (conn σ) in
  let cur := Int32.to_int32 (CurrentSize w - length) in
  let σ' :=
    {| conn :=
         {| LastStreamID := LastStreamID (conn σ);
            conn_Window :=
              {| InitialSize := InitialSize w;
                 CurrentSize := cur;
                 PeerCurrentSize := PeerCurrentSize w;
                 Threshold := Threshold w |};
            conn_Settings := conn_Settings (conn σ);
            conn_PeerSettings := conn_PeerSettings (conn σ);
            Streams := Streams (conn σ);
            WriteChan := WriteChan (conn σ) |};
       heap := heap σ; errors := errors σ; detached := detached σ |} in
  WindowUpdate length σ =
  if decide (cur < Threshold w) then Panic SendOnClosedChannel σ' else Ok tt σ'.
Proof.
  intros Hclosed w cur σ'. unfold WindowUpdate. run_monad.
  fold w. unfold Int32.sub at 1 2 3. fold cur.
  destruct (decide (cur < Threshold w)) as [Hlt|Hge].
  - run_monad. unfold chan_send. rewrite Hclosed. reflexivity.
  - reflexivity.
Qed.

Lemma WindowUpdate_closed_channel_witness :
  exists σ',
    WindowUpdate 60000
      (state_of_conn (set_WriteChan {| queue := []; closed := true |} fresh_conn)
                     initial_heap)
    = Panic SendOnClosedChannel σ' /\
    CurrentSize (conn_Window (conn σ')) = 5535.
Proof.
  rewrite (WindowUpdate_closed_channel 60000
             (state_of_conn (set_WriteChan {| queue := []; closed := true |} fresh_conn)
                            initial_heap) eq_refl).
  eexists. split; reflexivity.
Defined.

(** X11.  Credit is conserved over any sequence of calls of [WindowUpdate] on an
    open channel: the window at the end is, in [int32], the window at the
    start, less the lengths, plus the increments of the frames sent; these
    frames are the only ones sent, and every one is a credit update for
    the connection. *)
Theorem WindowUpdate_conserves_credit (lengths : list Z) (σ : St) :
  closed (WriteChan (conn σ)) = false ->
  Int32.is_int32 (CurrentSize (conn_Window (conn σ))) ->
  exists σ' sent,
    forM_ lengths WindowUpdate σ = Ok tt σ' /\
    WriteChan (conn σ') =
      {| queue := queue (WriteChan (conn σ)) ++ sent; closed := false |} /\
    Forall (fun f => FType (Header f) = WindowUpdateFrameType /\
                     StreamID (Header f) = 0%N) sent /\
    CurrentSize (conn_Window (conn σ')) =
      Int32.to_int32 (CurrentSize (conn_Window (conn σ))
                      - foldr Z.add 0 lengths
                      + foldr Z.add 0 (increment_of <$> sent)).
Proof.
  revert σ. induction lengths as [|len lengths IH]; intros σ Hopen Hc.
  - exists σ, []. simpl. rewrite app_nil_r.
    split; [reflexivity|]. split; [|split; [constructor|]].
    + destruct (WriteChan (conn σ)) as [q cl]. simpl in *. by subst.
    + rewrite to_int32_id; [lia|]. by replace (_ - 0 + 0) with
        (CurrentSize (conn_Window (conn σ))) by lia.
  - simpl forM_. unfold mbind at 1, M_bind at 1.
    rewrite (WindowUpdate_open len σ Hopen). cbv zeta.
    set (C := CurrentSize (conn_Window (conn σ))) in *.
    set (I := InitialSize (conn_Window (conn σ))) in *.
    destruct (to_int32_decomp (C - len)) as [k1 Hk1].
    destruct (decide (_ < _)) as [Hlt|Hge].
    + match goal with |- context [forM_ lengths _ ?σ1] =>
        destruct (IH σ1) as (σ' & sent & Hrun & Hch & Hall & Hcur) end.
      { reflexivity. }
      { simpl. apply to_int32_range. }
      exists σ'. eexists (_ :: sent).
      split; [exact Hrun|]. simpl in Hch, Hcur.
      split; [rewrite Hch; by rewrite <- app_assoc|].
      split; [constructor; [split; reflexivity|exact Hall]|].
      rewrite Hcur. simpl. unfold Int32.add, Int32.sub.
      fold C. fold I.
      destruct (to_int32_decomp (I - Int32.to_int32 (C - len))) as [k2 Hk2].
      destruct (to_int32_decomp (Int32.to_int32 (C - len)
                                 + Int32.to_int32 (I - Int32.to_int32 (C - len))))
        as [k3 Hk3].
      destruct (to_uint32_decomp (Int32.to_int32 (I - Int32.to_int32 (C - len))))
        as [k4 Hk4].
      apply (to_int32_congr _ _ (k1 + k3 - k4)).
      change (list_fmap Frame Z increment_of sent) with (increment_of <$> sent).
      lia.
    + match goal with |- context [forM_ lengths _ ?σ1] =>
        destruct (IH σ1) as (σ' & sent & Hrun & Hch & Hall & Hcur) end.
      { exact Hopen. }
      { simpl. apply to_int32_range. }
      exists σ', sent.
      split; [exact Hrun|]. simpl in Hch, Hcur.
      split; [exact Hch|]. split; [exact Hall|].
      rewrite Hcur. simpl. unfold Int32.sub. fold C.
      apply (to_int32_congr _ _ k1). lia.
Qed.

(** Three DATA payloads of 30000 bytes each on a fresh connection. *)
Lemma WindowUpdate_conserves_credit_witness :
  exists σ' sent,
    forM_ [30000; 30000; 30000] WindowUpdate (state_of_conn fresh_conn initial_heap)
    = Ok tt σ' /\
    WriteChan (conn σ') =
      {| queue := queue (WriteChan fresh_conn) ++ sent; closed := false |} /\
    Forall (fun f => FType (Header f) = WindowUpdateFrameType /\
                     StreamID (Header f) = 0%N) sent /\
    CurrentSize (conn_Window (conn σ')) =
      Int32.to_int32 (65535 - foldr Z.add 0 [30000; 30000; 30000]
                      + foldr Z.add 0 (increment_of <$> sent)).
Proof.
  apply (WindowUpdate_conserves_credit [30000; 30000; 30000]
           (state_of_conn fresh_conn initial_heap)).
  - reflexivity.
  - vm_compute. split; discriminate.
Defined.

(** ** The stream table over a run of [ReadLoop] *)

Lemma table_grows_refl σ : table_grows σ σ.
Proof. repeat split; auto; lia. Qed.

Lemma table_grows_trans σ1 σ2 σ3 :
  table_grows σ1 σ2 -> table_grows σ2 σ3 -> table_grows σ1 σ3.
Proof.
  intros (A1 & B1 & C1 & D1) (A2 & B2 & C2 & D2).
  repeat split; auto; lia.
Qed.

Lemma table_same_grows σ σ' :
  (forall id, is_Some (Streams (conn σ') !! id) <-> is_Some (Streams (conn σ) !! id)) ->
  LastStreamID (conn σ') = LastStreamID (conn σ) ->
  table_grows σ σ'.
Proof.
  intros Hs Hl. repeat split.
  - intros id. apply Hs.
  - lia.
  - intros H0. destruct (Streams (conn σ') !! 0%N) eqn:E; [|reflexivity].
    assert (H : is_Some (Streams (conn σ) !! 0%N)) by (apply Hs; rewrite E; eauto).
    rewrite H0 in H. by destruct H.
  - intros Hinv id H. rewrite Hl. apply Hinv, Hs, H.
Qed.

Lemma HandleSettings_table_grows (sf : SettingsFrame) (σ : St) :
  table_grows σ (state_of (HandleSettings sf σ)).
Proof.
  unfold HandleSettings.
  destruct (decide (Flags (sf_Header sf) = ACK)); [apply table_grows_refl|].
  destruct (decide (Flags (sf_Header sf) <> UNSET)); [by apply table_same_grows|].
  run_monad.
  destruct (heap σ (Settings sf) !! SETTINGS_INITIAL_WINDOW_SIZE) as [w|].
  - destruct (decide (w > 65535)); [by apply table_same_grows|]. run_monad.
    match goal with |- context [forM_ ?l ?f ?σ1] =>
      pose proof (fun id => forM_apply_settings_entries w l σ1 id) as Hl;
      pose proof (forM_frame f l (apply_settings_to_stream_frame w) σ1) as Hfr;
      destruct (forM_ l f σ1) as [[] σ2|p σ2] end;
      simpl in Hl, Hfr; destruct Hfr as (_ & _ & _ & _ & Hlast & _).
    + apply table_same_grows.
      * intros id. unfold chan_send. destruct (closed (WriteChan (conn σ2))); simpl;
          (destruct (Hl id) as [E|(s & Hin & E)]; [by rewrite E|];
           apply elem_of_map_to_list in Hin; simpl in Hin; rewrite E, Hin;
           split; eauto).
      * unfold chan_send. by destruct (closed (WriteChan (conn σ2))).
    + apply table_same_grows; simpl; [|exact Hlast].
      intros id. destruct (Hl id) as [E|(s & Hin & E)]; [by rewrite E|].
      apply elem_of_map_to_list in Hin. simpl in Hin. rewrite E, Hin. split; eauto.
  - run_monad. unfold chan_send.
    destruct (closed (WriteChan (conn σ))); by apply table_same_grows.
Qed.

Lemma Close_table_grows (σ : St) : table_grows σ (state_of (Close σ)).
Proof.
  unfold Close. unfold mbind at 1, M_bind at 1, get_conn at 1.
  unfold mbind at 1, M_bind at 1.
  destruct (forM_close_stream_ok (map_to_list (Streams (conn σ)))
              (NoDup_fst_map_to_list _) σ) as (σ1 & Hrun & Hs & Hfr & Hh).
  { intros k v. apply elem_of_map_to_list. }
  rewrite Hrun. destruct Hfr as (_ & _ & _ & _ & Hlast & _).
  assert (Hdom : forall id,
            is_Some (Streams (conn σ1) !! id) <-> is_Some (Streams (conn σ) !! id)).
  { intros id. rewrite Hs, list_to_map_to_list.
    destruct (Streams (conn σ) !! id); split; eauto. }
  run_monad. unfold chan_close.
  destruct (closed (WriteChan (conn σ1))); by apply table_same_grows.
Qed.

Lemma WindowUpdate_table_grows (length : Z) (σ : St) :
  table_grows σ (state_of (WindowUpdate length σ)).
Proof.
  unfold WindowUpdate. run_monad.
  destruct (decide (_ < _)); [|by apply table_same_grows].
  run_monad. unfold chan_send.
  destruct (closed (WriteChan (conn σ))); by apply table_same_grows.
Qed.

Lemma then_table_grows {A B : Type} (m : M A) (k : A -> M B) :
  (forall σ, table_grows σ (state_of (m σ))) ->
  (forall a σ, table_grows σ (state_of (k a σ))) ->
  forall σ, table_grows σ (state_of ((m ≫= k) σ)).
Proof.
  intros Hm Hk σ. unfold mbind, M_bind. specialize (Hm σ).
  destruct (m σ) as [a σ1|p σ1]; simpl in *; [|exact Hm].
  eapply table_grows_trans; [exact Hm|apply Hk].
Qed.

Lemma and_then_table_grows (s1 s2 : M Control) :
  (forall σ, table_grows σ (state_of (s1 σ))) ->
  (forall σ, table_grows σ (state_of (s2 σ))) ->
  forall σ, table_grows σ (state_of (and_then s1 s2 σ)).
Proof.
  intros H1 H2. unfold and_then. apply then_table_grows; [exact H1|].
  intros [] σ; try apply table_grows_refl. apply H2.
Qed.

Ltac table_cases sid Hsid Hl Hlast :=
  repeat split; simpl;
  [ intros id0 Hid0; destruct (decide (id0 = sid)) as [->|Hne0];
    rewrite ?lookup_insert_eq, ?lookup_insert_ne by done; eauto
  | try lia
  | intros Hz; rewrite ?lookup_insert_ne by done; exact Hz
  | intros Hinv id0 Hid0; destruct (decide (id0 = sid)) as [->|Hne0];
    [ try lia; try (apply Hinv; rewrite Hl; eauto)
    | rewrite ?lookup_insert_ne in Hid0 by done;
      specialize (Hinv id0 Hid0); try lia ] ].

Lemma step_stream_table_grows NewStream ChangeState (frame : Frame) (σ : St) :
  table_grows σ (state_of (step_stream NewStream ChangeState frame σ)).
Proof.
  unfold step_stream.
  destruct (decide (StreamID (Header frame) = 0%N)) as [|Hsid];
    [apply table_grows_refl|].
  run_monad.
  destruct (Streams (conn σ) !! StreamID (Header frame)) as [[s|]|] eqn:Hl;
    run_monad.
  - destruct (ChangeState frame s) as [s' [e|]]; run_monad;
      unfold chan_send; destruct (closed (stream_ReadChan s'));
      destruct (bool_decide (stream_State s' = CLOSED)); run_monad;
      table_cases (StreamID (Header frame)) Hsid Hl Hlast.
  - apply table_grows_refl.
  - destruct (decide (LastStreamID (conn σ) < StreamID (Header frame))%N) as [Hlast|Hlast];
      run_monad;
      destruct (ChangeState frame _) as [s' [e|]]; run_monad;
      unfold chan_send; destruct (closed (stream_ReadChan s'));
      destruct (bool_decide (stream_State s' = CLOSED)); run_monad;
      table_cases (StreamID (Header frame)) Hsid Hl Hlast.
Qed.

Lemma ReadLoop_turn_table_grows NewStream ChangeState (r : ReadResult) (σ : St) :
  table_grows σ (state_of (ReadLoop_turn NewStream ChangeState r σ)).
Proof.
  destruct r as [frame| |]; [|by apply table_same_grows..].
  unfold ReadLoop_turn. revert σ.
  repeat apply and_then_table_grows; intros σ.
  - unfold step_settings.
    destruct (decide (_ = _)); [|apply table_grows_refl].
    destruct frame; try by apply table_same_grows.
    revert σ. apply then_table_grows; [apply HandleSettings_table_grows|].
    intros ? ?. apply table_grows_refl.
  - unfold step_window_update.
    destruct (decide (_ /\ _)); [|apply table_grows_refl].
    destruct frame; by apply table_same_grows.
  - unfold step_goaway.
    destruct (decide (_ = _)); [|apply table_grows_refl].
    revert σ. apply then_table_grows; [apply Close_table_grows|].
    intros ? ?. apply table_grows_refl.
  - unfold step_data.
    destruct (decide (_ = _)); [|apply table_grows_refl].
    revert σ. apply then_table_grows; [apply WindowUpdate_table_grows|].
    intros ? ?. apply table_grows_refl.
  - apply step_stream_table_grows.
Qed.

Lemma ReadLoop_table_grows NewStream ChangeState (input : list ReadResult) (σ : St) :
  table_grows σ (state_of (ReadLoop NewStream ChangeState input σ)).
Proof.
  revert σ. induction input as [|r input IH]; intros σ.
  - apply table_grows_refl.
  - rewrite ReadLoop_cons.
    pose proof (ReadLoop_turn_table_grows NewStream ChangeState r σ) as Ht.
    destruct (ReadLoop_turn NewStream ChangeState r σ) as [[] σ1|p σ1];
      simpl in *; try exact Ht;
      (eapply table_grows_trans; [exact Ht|apply IH]).
Qed.

(** X12.  [ReadLoop] never takes an identifier out of the stream table: once a
    stream has an entry, it has one however the loop goes on and however it
    ends; frames that close a stream, settings frames and the termination
    frame included. *)
Theorem ReadLoop_never_removes_table_entry NewStream ChangeState
    (input : list ReadResult) (σ : St) (id : N) :
  is_Some (Streams (conn σ) !! id) ->
  is_Some (Streams (conn (state_of (ReadLoop NewStream ChangeState input σ))) !! id).
Proof. apply ReadLoop_table_grows. Qed.

(** Stream 1 is reset, then the connection is terminated. *)
Lemma ReadLoop_never_removes_table_entry_witness :
  is_Some (Streams (conn (state_of
    (ReadLoop (NewStream_spec sample_window) ChangeState_spec
       [ReadOk (rst_stream_frame 1); ReadOk goaway_frame]
       (state_of_conn conn_three_streams initial_heap)))) !! 1%N).
Proof.
  apply (ReadLoop_never_removes_table_entry (NewStream_spec sample_window)
           ChangeState_spec [ReadOk (rst_stream_frame 1); ReadOk goaway_frame]
           (state_of_conn conn_three_streams initial_heap) 1%N).
  vm_compute. eauto.
Defined.

(** X13.  On a connection made by [NewConn], whatever [ReadLoop] reads and however
    it ends: every identifier of the stream table is a stream identifier
    other than 0 and at most [LastStreamID]. *)
Theorem ReadLoop_table_within_LastStreamID NewStream ChangeState
    (w : Window) (h : Heap) (input : list ReadResult) (id : N) :
  let σ' := state_of (ReadLoop NewStream ChangeState input
                        (state_of_conn (NewConn w) h)) in
  is_Some (Streams (conn σ') !! id) ->
  (0 < id <= LastStreamID (conn σ'))%N.
Proof.
  intros σ' Hid.
  destruct (ReadLoop_table_grows NewStream ChangeState input
              (state_of_conn (NewConn w) h)) as (_ & _ & Hz & Hb).
  fold σ' in Hz, Hb. split.
  - destruct (decide (id = 0%N)) as [->|]; [|lia].
    rewrite Hz in Hid by reflexivity. by destruct Hid.
  - apply Hb; [|exact Hid].
    intros id0 H0. simpl in H0. rewrite lookup_empty in H0. by destruct H0.
Qed.

Lemma ReadLoop_table_within_LastStreamID_witness :
  let σ' := state_of (ReadLoop (NewStream_spec sample_window) ChangeState_spec
                        [ReadOk (headers_frame 5 END_HEADERS []);
                         ReadOk (headers_frame 3 END_HEADERS [])]
                        (state_of_conn (NewConn sample_window) initial_heap)) in
  (0 < 3 <= LastStreamID (conn σ'))%N.
Proof.
  apply (ReadLoop_table_within_LastStreamID (NewStream_spec sample_window)
           ChangeState_spec sample_window initial_heap
           [ReadOk (headers_frame 5 END_HEADERS []);
            ReadOk (headers_frame 3 END_HEADERS [])] 3%N).
  vm_compute. eauto.
Defined.

(** ** [Close] a second time, and [WriteLoop] *)

Lemma Close_closed (σ : St) :
  closed (WriteChan (conn σ)) = true ->
  exists σ',
    Close σ = Panic CloseOfClosedChannel σ' /\
    Streams (conn σ') =
      (fun v : option Stream => Stream_Close <$> v) <$> Streams (conn σ) /\
    WriteChan (conn σ') = WriteChan (conn σ).
Proof.
  intros Hclosed. unfold Close. unfold mbind at 1, M_bind at 1, get_conn at 1.
  unfold mbind at 1, M_bind at 1.
  destruct (forM_close_stream_ok (map_to_list (Streams (conn σ)))
              (NoDup_fst_map_to_list _) σ) as (σ1 & Hrun & Hs & Hfr & Hh).
  { intros k v. apply elem_of_map_to_list. }
  rewrite Hrun. destruct Hfr as (Hw & _ & _ & Hch & _ & He & _).
  run_monad. unfold chan_close. rewrite Hch, Hclosed.
  eexists. split; [reflexivity|]. split; [|exact Hch].
  apply map_eq. intros k. rewrite Hs, list_to_map_to_list, lookup_fmap.
  by destruct (Streams (conn σ) !! k).
Qed.

(** X14.  [Close] is not to be called twice: the first call on an open outbound
    channel returns, and a second call, after closing the streams again,
    dies on the channel that is closed already; the frames of the channel
    are still in it. *)
Theorem Close_twice_panics (σ : St) :
  closed (WriteChan (conn σ)) = false ->
  exists σ',
    (Close ;; Close) σ = Panic CloseOfClosedChannel σ' /\
    WriteChan (conn σ') = {| queue := queue (WriteChan (conn σ)); closed := true |}.
Proof.
  intros Hopen.
  destruct (Close_open σ Hopen) as (σ1 & Hrun & _ & Hch & _).
  destruct (Close_closed σ1) as (σ2 & Hrun2 & _ & Hch2).
  { by rewrite Hch. }
  exists σ2. unfold mbind, M_bind. rewrite Hrun. split; [exact Hrun2|].
  by rewrite Hch2.
Qed.

Lemma Close_twice_panics_witness :
  exists σ',
    (Close ;; Close) (state_of_conn conn_three_streams initial_heap)
    = Panic CloseOfClosedChannel σ' /\
    WriteChan (conn σ') =
      {| queue := queue (WriteChan conn_three_streams); closed := true |}.
Proof.
  apply (Close_twice_panics (state_of_conn conn_three_streams initial_heap)).
  reflexivity.
Defined.

Lemma WriteLoop_from_app write (pre q written : list Frame) (is_closed : bool) :
  Forall (fun f => write f = None) pre ->
  WriteLoop_from write (pre ++ q) is_closed written =
  WriteLoop_from write q is_closed (written ++ pre).
Proof.
  revert written. induction pre as [|f pre IH]; intros written Hpre; simpl.
  - by rewrite app_nil_r.
  - apply Forall_cons in Hpre as [Hf Hpre]. rewrite Hf, IH by exact Hpre.
    by rewrite <- app_assoc.
Qed.

(** X15.  [WriteLoop] stops at the first write that fails: the frames before it
    have been written to the transport, in the order of the channel, the
    frame itself and those after it have not, and the error of that write
    is returned; whether the channel is closed or not. *)
Theorem WriteLoop_stops_at_first_failed_write write (c : Conn)
    (pre : list Frame) (f : Frame) (post : list Frame) (e : string) :
  queue (WriteChan c) = pre ++ f :: post ->
  Forall (fun g => write g = None) pre ->
  write f = Some e ->
  WriteLoop write c = (pre, WriteLoopReturned (Some e)).
Proof.
  intros Hq Hpre Hf. unfold WriteLoop. rewrite Hq.
  rewrite WriteLoop_from_app by exact Hpre. simpl. by rewrite Hf.
Qed.

(** The transport fails on the frame for stream 3. *)
Lemma WriteLoop_stops_at_first_failed_write_witness :
  WriteLoop (fun g => if decide (StreamID (Header g) = 3%N)
                      then Some "broken pipe"%string else None)
    (set_WriteChan {| queue := [rst_stream_frame 1; rst_stream_frame 3;
                                rst_stream_frame 5];
                      closed := false |} fresh_conn)
  = ([rst_stream_frame 1], WriteLoopReturned (Some "broken pipe"%string)).
Proof.
  apply (WriteLoop_stops_at_first_failed_write _ _ [rst_stream_frame 1]
           (rst_stream_frame 3) [rst_stream_frame 5]).
  - reflexivity.
  - repeat constructor.
  - reflexivity.
Defined.

(** X16.  When no write fails, [WriteLoop] writes every frame of the channel, in
    order; it returns, without an error, when the channel is closed, and
    waits for the next frame as long as it is open. *)
Theorem WriteLoop_writes_the_whole_channel write (c : Conn) :
  Forall (fun g => write g = None) (queue (WriteChan c)) ->
  WriteLoop write c =
  (queue (WriteChan c),
   if closed (WriteChan c) then WriteLoopReturned None else WriteLoopWaiting).
Proof.
  intros Hq. unfold WriteLoop.
  rewrite <- (app_nil_r (queue (WriteChan c))) at 1.
  by rewrite WriteLoop_from_app by exact Hq.
Qed.

Lemma WriteLoop_writes_the_whole_channel_witness :
  WriteLoop (fun _ => None)
    (set_WriteChan {| queue := [rst_stream_frame 1; goaway_frame]; closed := false |}
                   fresh_conn)
  = ([rst_stream_frame 1; goaway_frame], WriteLoopWaiting).
Proof.
  apply (WriteLoop_writes_the_whole_channel (fun _ => None)
           (set_WriteChan {| queue := [rst_stream_frame 1; goaway_frame];
                             closed := false |} fresh_conn)).
  repeat constructor.
Defined.

(** ** More on [SendRequest] and [RecvResponse] *)



(** X18.  The frame that [SendRequest] writes for a GET request does not end
    [RecvResponse]: its flags are the end-of-stream flag together with the
    end-of-headers flag, and the loop looks for a flags byte that is 1. *)
Theorem SendRequest_GET_read_back_waits (HpackContext : Type)
    (EncodeHeader : HpackContext -> HttpHeader -> list byte * HpackContext)
    (request : StreamGo.Request) (s s2 : StreamGo.Stream HpackContext)
    (sent : list Frame) :
  StreamGo.Method request = "GET"%string ->
  StreamGo.written (StreamGo.stream_Conn (StreamGo.SendRequest EncodeHeader request s))
    = StreamGo.written (StreamGo.stream_Conn s) ++ sent ->
  StreamGo.incoming (StreamGo.stream_Conn s2) = sent ->
  Forall carries_END_STREAM sent /\
  StreamGo.RecvResponse s2 = StreamGo.Waiting.
Proof.
  intros Hm Hsent Hin. unfold StreamGo.SendRequest in Hsent. rewrite Hm in Hsent.
  simpl in Hsent. unfold StreamGo.headers_frame, StreamGo.conn_EncodeHeader in Hsent.
  simpl in Hsent.
  destruct (EncodeHeader _ _) as [block ctx]. simpl in Hsent.
  apply app_inv_head in Hsent. subst sent.
  split; [by repeat constructor|].
  unfold StreamGo.RecvResponse. by rewrite Hin.
Qed.

Lemma SendRequest_GET_read_back_waits_witness :
  Forall carries_END_STREAM
    (StreamGo.written (StreamGo.stream_Conn
       (StreamGo.SendRequest sample_encoder (sample_request "GET" [])
          (sample_go_stream [])))) /\
  StreamGo.RecvResponse
    (sample_go_stream
       (StreamGo.written (StreamGo.stream_Conn
          (StreamGo.SendRequest sample_encoder (sample_request "GET" [])
             (sample_go_stream [])))))
  = StreamGo.Waiting.
Proof.
  apply (SendRequest_GET_read_back_waits nat sample_encoder
           (sample_request "GET" []) (sample_go_stream [])
           (sample_go_stream
              (StreamGo.written (StreamGo.stream_Conn
                 (StreamGo.SendRequest sample_encoder (sample_request "GET" [])
                    (sample_go_stream [])))))
           (StreamGo.written (StreamGo.stream_Conn
              (StreamGo.SendRequest sample_encoder (sample_request "GET" [])
                 (sample_go_stream []))))).
  - reflexivity.
  - reflexivity.
  - reflexivity.
Defined.

Lemma RecvResponse_loop_mistyped (HpackContext : Type) (f : Frame) (rest : list Frame)
    (c : Z) (header : HttpHeader) (resBody : list byte)
    (s : StreamGo.Stream HpackContext) :
  ~ well_typed f ->
  StreamGo.RecvResponse_loop (f :: rest) c header resBody s = StreamGo.TypeAssertionPanic.
Proof.
  unfold well_typed. simpl.
  destruct (FType (Header f)) eqn:Ht; destruct f; simpl; intros H;
    try (by destruct H);
    repeat match goal with
    | |- context [decide (?a = ?b :> FrameType)] =>
        destruct (decide (a = b :> FrameType)) as [E|E];
          [try discriminate E|try by destruct E]
    end; reflexivity.
Qed.

Lemma well_typed_dec (f : Frame) : {well_typed f} + {~ well_typed f}.
Proof.
  unfold well_typed. destruct (FType (Header f)); destruct f; auto.
Qed.

Lemma RecvResponse_loop_inv (HpackContext : Type) (s : StreamGo.Stream HpackContext)
    (frames : list Frame) :
  forall (c : Z) (header : HttpHeader) (resBody : list byte)
         (res : StreamGo.Response) (s' : StreamGo.Stream HpackContext),
  c <= 51 ->
  StreamGo.RecvResponse_loop frames c header resBody s = StreamGo.Returned res s' ->
  exists read rest,
    frames = read ++ rest /\
    (1 <= length read)%nat /\
    c + Z.of_nat (length read) <= 52 /\
    Forall well_typed read /\
    res = StreamGo.make_response (last_headers header read)
                                 (resBody ++ data_payloads read) s /\
    s' = StreamGo.set_incoming rest s.
Proof.
  induction frames as [|f frames IH]; intros c header resBody res s' Hc Hrun.
  - discriminate Hrun.
  - destruct (well_typed_dec f) as [Hf|Hf];
      [|rewrite RecvResponse_loop_mistyped in Hrun by exact Hf; discriminate Hrun].
    rewrite RecvResponse_loop_cons in Hrun by exact Hf. cbv zeta in Hrun.
    destruct (decide (Flags (Header f) = 1)).
    { injection Hrun as <- <-. exists [f], frames.
      repeat split; simpl; try lia. by constructor. }
    destruct (decide (c > 50)).
    { injection Hrun as <- <-. exists [f], frames.
      repeat split; simpl; try lia. by constructor. }
    apply IH in Hrun as (read & rest & -> & Hlen & Hb & Hwt & -> & ->); [|lia].
    exists (f :: read), rest.
    split; [reflexivity|]. split; [simpl; lia|]. split; [simpl length; lia|].
    split; [by constructor|]. split; [|reflexivity].
    change (f :: read) with ([f] ++ read).
    by rewrite last_headers_app, data_payloads_app, app_assoc.
Qed.

(** X19.  Whenever [RecvResponse] returns, it has taken at least one and at most
    52 frames from the front of the incoming frames, each of the concrete
    type that its header announces, and left the others in place; the
    response has the header fields of the last HEADERS frame taken and the
    payloads of the DATA frames taken as its body, with their length as the
    content length, and it refers to the request of the stream.  Nothing
    was written. *)
Theorem RecvResponse_takes_a_prefix_of_at_most_52 (HpackContext : Type)
    (s s' : StreamGo.Stream HpackContext) (res : StreamGo.Response) :
  StreamGo.RecvResponse s = StreamGo.Returned res s' ->
  exists read,
    StreamGo.incoming (StreamGo.stream_Conn s)
      = read ++ StreamGo.incoming (StreamGo.stream_Conn s') /\
    (1 <= length read <= 52)%nat /\
    Forall well_typed read /\
    StreamGo.res_Header res = last_headers [] read /\
    StreamGo.res_Body res = data_payloads read /\
    StreamGo.ContentLength res = Z.of_nat (length (data_payloads read)) /\
    StreamGo.res_Request res = StreamGo.req s /\
    StreamGo.written (StreamGo.stream_Conn s') = StreamGo.written (StreamGo.stream_Conn s) /\
    StreamGo.Id s' = StreamGo.Id s.
Proof.
  intros Hrun. unfold StreamGo.RecvResponse in Hrun.
  apply RecvResponse_loop_inv in Hrun
    as (read & rest & Hin & Hlen & Hb & Hwt & -> & ->); [|lia].
  exists read. simpl. repeat split; try assumption; lia.
Qed.

Lemma RecvResponse_takes_a_prefix_of_at_most_52_witness :
  exists read,
    [headers_frame 1 END_HEADERS [("status"%string, ["200"%string])];
     data_frame 1 END_STREAM [Byte.x6f; Byte.x6b];
     data_frame 3 0 []]
      = read ++ [data_frame 3 0 []] /\
    (1 <= length read <= 52)%nat /\
    Forall well_typed read /\
    [("status"%string, ["200"%string])] = last_headers [] read /\
    [Byte.x6f; Byte.x6b] = data_payloads read /\
    2 = Z.of_nat (length (data_payloads read)) /\
    None = StreamGo.req (sample_go_stream
             [headers_frame 1 END_HEADERS [("status"%string, ["200"%string])];
              data_frame 1 END_STREAM [Byte.x6f; Byte.x6b];
              data_frame 3 0 []]) /\
    [] = StreamGo.written (StreamGo.stream_Conn (sample_go_stream
           [headers_frame 1 END_HEADERS [("status"%string, ["200"%string])];
            data_frame 1 END_STREAM [Byte.x6f; Byte.x6b];
            data_frame 3 0 []])) /\
    1%N = StreamGo.Id (sample_go_stream
            [headers_frame 1 END_HEADERS [("status"%string, ["200"%string])];
             data_frame 1 END_STREAM [Byte.x6f; Byte.x6b];
             data_frame 3 0 []]).
Proof.
  apply (RecvResponse_takes_a_prefix_of_at_most_52 nat
           (sample_go_stream
              [headers_frame 1 END_HEADERS [("status"%string, ["200"%string])];
               data_frame 1 END_STREAM [Byte.x6f; Byte.x6b];
               data_frame 3 0 []])
           (StreamGo.mkStream 1%N (StreamGo.mkConn 0%nat [] [data_frame 3 0 []]) None)
           {| StreamGo.ProtoMajor := 2; StreamGo.ProtoMinor := 0;
              StreamGo.res_Header := [("status"%string, ["200"%string])];
              StreamGo.res_Body := [Byte.x6f; Byte.x6b];
              StreamGo.ContentLength := 2;
              StreamGo.res_Request := None |}).
  reflexivity.
Defined.

Lemma RecvResponse_loop_panics (HpackContext : Type) (pre : list Frame)
    (bad : Frame) (rest : list Frame) (s : StreamGo.Stream HpackContext) :
  forall (c : Z) (header : HttpHeader) (resBody : list byte),
  Forall well_typed pre ->
  Forall (fun f => Flags (Header f) <> 1) pre ->
  c + Z.of_nat (length pre) <= 51 ->
  ~ well_typed bad ->
  StreamGo.RecvResponse_loop (pre ++ bad :: rest) c header resBody s =
  StreamGo.TypeAssertionPanic.
Proof.
  induction pre as [|f pre IH]; intros c header resBody Hwt Hfl Hc Hbad.
  - by apply RecvResponse_loop_mistyped.
  - apply Forall_cons in Hwt as [Hf Hwt]. apply Forall_cons in Hfl as [Hnf Hfl].
    change ((f :: pre) ++ bad :: rest) with (f :: (pre ++ bad :: rest)).
    rewrite RecvResponse_loop_cons by exact Hf. cbv zeta.
    destruct (decide (Flags (Header f) = 1)); [contradiction|].
    simpl length in Hc.
    destruct (decide (c > 50)); [lia|].
    apply IH; [exact Hwt|exact Hfl|lia|exact Hbad].
Qed.

(** X20.  A frame among the first 52, before any frame that ends the loop, whose
    header announces HEADERS or DATA and whose concrete type is another
    one: the type assertion of [RecvResponse] fails and the call dies; no
    response is built. *)
Theorem RecvResponse_panics_on_mistyped_frame (HpackContext : Type)
    (s : StreamGo.Stream HpackContext) (pre : list Frame) (bad : Frame)
    (rest : list Frame) :
  StreamGo.incoming (StreamGo.stream_Conn s) = pre ++ bad :: rest ->
  Forall well_typed pre ->
  Forall (fun f => Flags (Header f) <> 1) pre ->
  (length pre <= 51)%nat ->
  ~ well_typed bad ->
  StreamGo.RecvResponse s = StreamGo.TypeAssertionPanic.
Proof.
  intros Hin Hwt Hfl Hlen Hbad. unfold StreamGo.RecvResponse. rewrite Hin.
  apply RecvResponse_loop_panics; [exact Hwt|exact Hfl|lia|exact Hbad].
Qed.

Lemma RecvResponse_panics_on_mistyped_frame_witness :
  StreamGo.RecvResponse
    (sample_go_stream [headers_frame 1 END_HEADERS [];
                       FOther (mkFrameHeader 0 DataFrameType 1 1)])
  = StreamGo.TypeAssertionPanic.
Proof.
  apply (RecvResponse_panics_on_mistyped_frame nat
           (sample_go_stream [headers_frame 1 END_HEADERS [];
                              FOther (mkFrameHeader 0 DataFrameType 1 1)])
           [headers_frame 1 END_HEADERS []]
           (FOther (mkFrameHeader 0 DataFrameType 1 1)) []).
  - reflexivity.
  - repeat constructor.
  - repeat constructor. simpl. discriminate.
  - simpl. lia.
  - simpl. tauto.
Defined.

(** ** The connection preface *)

Lemma store_is_preface (data : list byte) :
  (length data <= length Preface.CONNECTION_PREFACE)%nat ->
  Preface.store data (Preface.make_bytes (length Preface.CONNECTION_PREFACE))
    = Preface.CONNECTION_PREFACE <->
  data = Preface.CONNECTION_PREFACE.
Proof.
  intros Hlen. split.
  - unfold Preface.store, Preface.make_bytes.
    rewrite length_replicate, take_ge by exact Hlen.
    rewrite drop_replicate.
    destruct (length Preface.CONNECTION_PREFACE - length data)%nat as [|k] eqn:Hk.
    + simpl. by rewrite app_nil_r.
    + rewrite replicate_S_end, app_assoc.
      intros H.
      change Preface.CONNECTION_PREFACE
        with (take 23 Preface.CONNECTION_PREFACE ++ [Byte.x0a]) in H.
      apply app_inj_tail in H as [_ H]. discriminate H.
  - intros ->. reflexivity.
Qed.

(** X21.  [ReadMagic] with a transport that delivers no more than the buffer
    holds: the error of the read is returned as it is; without one, the
    call succeeds exactly when that single read has delivered the whole
    preface, and a read that delivers less, a first part of the preface
    included, is answered with "Invalid Magic String".  The transport is
    left as the read has left it. *)
Theorem ReadMagic_needs_the_preface_in_one_read (RW : Type)
    (rw_Read : nat -> RW -> list byte * option string * RW)
    (rw rw' : RW) (data : list byte) (err : option string) :
  rw_Read 24%nat rw = (data, err, rw') ->
  (length data <= 24)%nat ->
  Preface.ReadMagic rw_Read rw =
  (match err with
   | Some e => Some e
   | None => if decide (data = Preface.CONNECTION_PREFACE) then None
             else Some "Invalid Magic String"%string
   end, rw').
Proof.
  intros Hread Hlen. unfold Preface.ReadMagic.
  change (length (Preface.make_bytes (length Preface.CONNECTION_PREFACE))) with 24%nat.
  rewrite Hread. destruct err as [e|]; [reflexivity|].
  pose proof (store_is_preface data Hlen) as Hs.
  destruct (decide (_ <> _)) as [Hne|Heq];
    destruct (decide (data = _)) as [Hd|Hd]; try reflexivity.
  - destruct Hne. by apply Hs.
  - destruct Hd. apply Hs. by destruct (decide
      (Preface.store data (Preface.make_bytes (length Preface.CONNECTION_PREFACE))
       = Preface.CONNECTION_PREFACE)); [|destruct Heq].
Qed.

(** The preface arrives in two parts, ten bytes first. *)
Lemma ReadMagic_needs_the_preface_in_one_read_witness :
  Preface.ReadMagic (Preface.buffer_Read 10) Preface.CONNECTION_PREFACE =
  (Some "Invalid Magic String"%string, drop 10 Preface.CONNECTION_PREFACE).
Proof.
  apply (ReadMagic_needs_the_preface_in_one_read (list byte) (Preface.buffer_Read 10)
           Preface.CONNECTION_PREFACE (drop 10 Preface.CONNECTION_PREFACE)
           (take 10 Preface.CONNECTION_PREFACE) None).
  - reflexivity.
  - simpl. lia.
Defined.
